(** * Hall-Yarborough Z-factor calculator (src/app.py): a shallow embedding

    The numeric part of the Streamlit script: Sutton's pseudo-critical
    correlation (lines 119-121), the Wichert-Aziz correction (lines 123-126),
    the reduced properties (lines 162-167), the residual [fy] and [Zfac]
    (lines 128-140), and the pressure sweep with its highlighted row (lines
    172-198). The validation of the six text fields (lines 30-115) and one
    run of the whole script, with the button and its missing-input check
    (lines 143-160), are modelled on top of these.

    The correlation and the correction, whose inputs validation bounds, are
    modelled in exact real arithmetic. From the reduced properties on, a
    float is a value of [npf]: a finite float [Fin r], inf, -inf or nan.
    Rounding is not modelled there (a finite result is the exact real), but
    overflow is: a result whose magnitude reaches [float_overflow] rounds to
    an infinity.

    Python-level failures are explicit: a float division by zero raises
    [ZeroDivisionError]; a float [**] or a [math.exp] whose result overflows
    raises [OverflowError]; [int] of an infinity raises [OverflowError] and
    [int] of nan [ValueError]; indexing an empty array raises [IndexError].
    numpy arithmetic never raises: it gives inf or nan.

    scipy's [fsolve] is a library routine: it is a parameter of the model
    ([fsolve : (R -> npf) -> R -> npf], the residual and the initial guess
    to the first component of the returned array). Before its search it
    evaluates the residual once at the initial guess, and an exception
    raised there propagates; [Zfac] makes that call explicit.

    Module [Binary64] re-embeds lines 119-126 over Rocq's primitive
    IEEE-754 binary64 floats, for the properties that depend on rounding. *)

From Stdlib Require Import Reals Lra Lia ZArith List Bool Floats Sorting.Sorted.
Import ListNotations.
Set Warnings "-inexact-float".

(** ** Python outcomes *)

(** [NotReal] marks a value Python produces as a complex number (a negative
    float raised to a non-integer power); it is outside this real-valued
    model, and the validated inputs never reach it. *)
Inductive pyerr : Type :=
| ZeroDivisionError
| OverflowError
| ValueError
| IndexError
| NotReal.

Inductive res (A : Type) : Type :=
| Ok (a : A)
| Raise (e : pyerr).
Arguments Ok {A} a.
Arguments Raise {A} e.

Definition bind {A B : Type} (m : res A) (k : A -> res B) : res B :=
  match m with
  | Ok a => k a
  | Raise e => Raise e
  end.

Notation "x <- m ;; k" := (bind m (fun x => k))
  (at level 61, m at next level, right associativity).

Fixpoint mapM {A B : Type} (f : A -> res B) (l : list A) : res (list B) :=
  match l with
  | [] => Ok []
  | a :: l' => b <- f a ;; bs <- mapM f l' ;; Ok (b :: bs)
  end.

Open Scope R_scope.

(** ** Python floats, in exact arithmetic *)

(** [a / b] on Python floats. *)
Definition py_div (a b : R) : res R :=
  if Req_EM_T b 0 then Raise ZeroDivisionError else Ok (a / b).

(** [int(x)] on a finite Python float: truncation toward zero. *)
Definition py_int (x : R) : Z :=
  if Rle_dec 0 x then Int_part x else (- Int_part (- x))%Z.

(** [x ** a] on Python floats for a non-integer exponent [a] (the script
    uses 0.9, 1.6 and 0.5): CPython's float_pow returns 1.0 for a zero
    exponent, raises ZeroDivisionError for 0.0 to a negative power, returns
    0.0 for 0.0 to a positive power, and a complex number for a negative
    base. Integer exponents ([y ** 4], [SG ** 2]) are the real [^]. *)
Definition py_fpow (x a : R) : res R :=
  if Req_EM_T a 0 then Ok 1
  else if Rlt_dec 0 x then Ok (Rpower x a)
  else if Req_EM_T x 0 then
    (if Rlt_dec a 0 then Raise ZeroDivisionError else Ok 0)
  else Raise NotReal.

(** ** Sutton's correlation, lines 119-121 *)

Definition Tpc (SG : R) : R := 169.2 + 349.5 * SG - 74.0 * SG ^ 2.
Definition Ppc (SG : R) : R := 756.8 - 131.0 * SG - 3.6 * SG ^ 2.

(** ** Wichert-Aziz correction, lines 123-126 *)

Definition e (y_H2S_val y_CO2_val y_N2_val : R) : res R :=
  a <- py_fpow (y_N2_val + y_CO2_val) 0.9 ;;
  b <- py_fpow (y_N2_val + y_CO2_val) 1.6 ;;
  c <- py_fpow y_H2S_val 0.5 ;;
  Ok (120 * (a - b) + 15 * (c - y_H2S_val ^ 4)).

(** [(Tpc_corr, Ppc_corr)] from [Tpc], [Ppc] and the three mole fractions. *)
Definition wichert_aziz (Tpc Ppc y_H2S_val y_CO2_val y_N2_val : R)
  : res (R * R) :=
  ev <- e y_H2S_val y_CO2_val y_N2_val ;;
  let Tpc_corr := Tpc - ev in
  Ppc_corr <- py_div (Ppc * Tpc_corr)
                (Tpc + y_H2S_val * (1 - y_H2S_val) * (304.2 - Tpc_corr)) ;;
  Ok (Tpc_corr, Ppc_corr).

(** ** Floats with infinities and nan *)

(** A Python float or a numpy float64. *)
Inductive npf : Type :=
| Fin (r : R)
| PInf
| NInf
| NaN.

(** The largest finite binary64 float, and the magnitude from which an exact
    result rounds to an infinity (round to nearest). *)
Definition float_max : R := IZR (2 ^ 1024 - 2 ^ 971).
Definition float_overflow : R := IZR (2 ^ 1024 - 2 ^ 970).

(** The float an exact result [r] rounds to, rounding aside. *)
Definition np_fin (r : R) : npf :=
  if Rlt_dec (Rabs r) float_overflow then Fin r
  else if Rlt_dec 0 r then PInf else NInf.

(** The infinity with the sign of a non-zero [a]. *)
Definition inf_sign (a : R) : npf := if Rlt_dec 0 a then PInf else NInf.

(** IEEE-754 negation, sum, difference, product and quotient. These never
    raise; zeros are taken as +0.0. *)
Definition f_neg (x : npf) : npf :=
  match x with
  | Fin r => Fin (- r)
  | PInf => NInf
  | NInf => PInf
  | NaN => NaN
  end.

Definition f_add (x y : npf) : npf :=
  match x, y with
  | Fin a, Fin b => np_fin (a + b)
  | NaN, _ | _, NaN => NaN
  | PInf, NInf | NInf, PInf => NaN
  | PInf, _ | _, PInf => PInf
  | NInf, _ | _, NInf => NInf
  end.

Definition f_sub (x y : npf) : npf := f_add x (f_neg y).

Definition f_mul (x y : npf) : npf :=
  match x, y with
  | Fin a, Fin b => np_fin (a * b)
  | NaN, _ | _, NaN => NaN
  | Fin a, PInf | PInf, Fin a => if Req_EM_T a 0 then NaN else inf_sign a
  | Fin a, NInf | NInf, Fin a => if Req_EM_T a 0 then NaN else inf_sign (- a)
  | PInf, PInf | NInf, NInf => PInf
  | _, _ => NInf
  end.

Definition f_div (x y : npf) : npf :=
  match x, y with
  | Fin a, Fin b =>
      if Req_EM_T b 0 then (if Req_EM_T a 0 then NaN else inf_sign a)
      else np_fin (a / b)
  | NaN, _ | _, NaN => NaN
  | Fin _, _ => Fin 0
  | PInf, Fin b => if Rlt_dec b 0 then NInf else PInf
  | NInf, Fin b => if Rlt_dec b 0 then PInf else NInf
  | _, _ => NaN
  end.

(** [a / b] on Python floats: ZeroDivisionError for a zero divisor, the IEEE
    quotient otherwise (an overflow gives inf, with no exception). *)
Definition py_fdiv (x y : npf) : res npf :=
  match y with
  | Fin b => if Req_EM_T b 0 then Raise ZeroDivisionError else Ok (f_div x y)
  | _ => Ok (f_div x y)
  end.

(** [x ** n] on a Python float for an integer exponent [n >= 1]: CPython's
    float_pow raises OverflowError when a finite [x] gives a result that
    overflows; inf and nan go through. *)
Definition py_ipow (x : npf) (n : nat) : res npf :=
  match x with
  | Fin r =>
      if Rlt_dec (Rabs (r ^ n)) float_overflow then Ok (Fin (r ^ n))
      else Raise OverflowError
  | PInf => Ok PInf
  | NInf => Ok (if Nat.even n then PInf else NInf)
  | NaN => Ok NaN
  end.

(** [math.exp]: OverflowError when the result of a finite argument
    overflows. *)
Definition math_exp (x : npf) : res npf :=
  match x with
  | Fin r =>
      if Rlt_dec (exp r) float_overflow then Ok (Fin (exp r))
      else Raise OverflowError
  | PInf => Ok PInf
  | NInf => Ok (Fin 0)
  | NaN => Ok NaN
  end.

(** [x ** n] with [x] a numpy float64 and an integer [n >= 1]. *)
Definition np_ipow (x : npf) (n : nat) : npf :=
  match x with
  | Fin r => np_fin (r ^ n)
  | PInf => PInf
  | NInf => if Nat.even n then PInf else NInf
  | NaN => NaN
  end.

(** [x ** a] with [x] a finite numpy float64 and [a] a float, as C's [pow]:
    1 for a zero exponent, nan for a negative base and a non-integer
    exponent, inf for 0.0 to a negative power; an infinite exponent gives 0,
    1 or inf by [|x|]; a nan exponent gives nan unless [x = 1]. *)
Definition np_pow (x : R) (a : npf) : npf :=
  match a with
  | Fin b =>
      if Req_EM_T b 0 then Fin 1
      else if Rlt_dec 0 x then np_fin (Rpower x b)
      else if Req_EM_T x 0 then (if Rlt_dec 0 b then Fin 0 else PInf)
      else if Req_EM_T (IZR (Int_part b)) b then
        np_fin ((if Z.even (Int_part b) then 1 else -1) * Rpower (- x) b)
      else NaN
  | PInf =>
      if Req_EM_T (Rabs x) 1 then Fin 1
      else if Rlt_dec (Rabs x) 1 then Fin 0 else PInf
  | NInf =>
      if Req_EM_T (Rabs x) 1 then Fin 1
      else if Rlt_dec (Rabs x) 1 then PInf else Fin 0
  | NaN => if Req_EM_T x 1 then Fin 1 else NaN
  end.

(** ** The Hall-Yarborough residual, lines 129-133 *)

(** [fsolve] calls [fy] with [y] a one-element numpy array and [alpha],
    [Ppr], [t] Python floats: [-alpha * Ppr] and the powers of [t] are
    Python float arithmetic ([t ** 2] and [t ** 3] raise OverflowError when
    they overflow), the rest is numpy arithmetic. The second coefficient
    evaluates [t ** 2] and [t ** 3] again, with the same results. *)
Definition fy (y : R) (alpha Ppr t : npf) : res npf :=
  let a := f_mul (f_neg alpha) Ppr in
  let num := f_sub (f_add (f_add (Fin y) (np_ipow (Fin y) 2)) (np_ipow (Fin y) 3))
               (np_ipow (Fin y) 4) in
  let q := f_div num (np_ipow (f_sub (Fin 1) (Fin y)) 3) in
  t2 <- py_ipow t 2 ;;
  t3 <- py_ipow t 3 ;;
  let c1 := f_add (f_sub (f_mul (Fin 14.76) t) (f_mul (Fin 9.76) t2))
              (f_mul (Fin 4.58) t3) in
  let c2 := f_add (f_sub (f_mul (Fin 90.7) t) (f_mul (Fin 242.2) t2))
              (f_mul (Fin 42.4) t3) in
  let ex := f_add (Fin 2.18) (f_mul (Fin 2.82) t) in
  Ok (f_add (f_sub (f_add a q) (f_mul c1 (np_ipow (Fin y) 2)))
        (f_mul c2 (np_pow y ex))).

(** The residual as the specification writes it (section 4.4), for
    [0 < y < 1]: compared with [fy] below. *)
Definition hy_residual_spec (alpha Ppr t y : R) : R :=
  - alpha * Ppr
  + (y + y ^ 2 + y ^ 3 - y ^ 4) / (1 - y) ^ 3
  - (14.76 * t - 9.76 * t ^ 2 + 4.58 * t ^ 3) * y ^ 2
  + (90.7 * t - 242.2 * t ^ 2 + 42.4 * t ^ 3) * Rpower y (2.18 + 2.82 * t).

(** The residual's value as [fsolve] sees it. [fy] raises only from the
    powers of [t], whatever [y] (lemma [fy_raise_indep]), and [Zfac] has
    evaluated it once before the search, so the nan here is never taken. *)
Definition res_value (r : res npf) : npf :=
  match r with
  | Ok v => v
  | Raise _ => NaN
  end.

(** [alpha] of line 137, for a given [t = 1 / Tpr]. *)
Definition alpha_of (t : R) : R := 0.06125 * t * exp (-1.2 * (1 - t) ^ 2).

(** ** Reduced properties, lines 162-167: [(Tr, Pr)] *)

Definition reduced_properties (P T : npf) (Tpc_corr Ppc_corr : R)
  : res (npf * npf) :=
  let T_rankine := f_add T (Fin 459.67) in
  Pr <- py_fdiv P (Fin Ppc_corr) ;;
  Tr <- py_fdiv T_rankine (Fin Tpc_corr) ;;
  Ok (Tr, Pr).

Section Solver.

Variable fsolve : (R -> npf) -> R -> npf.

(** Lines 135-140. *)
Definition Zfac (Tpr Ppr : npf) : res npf :=
  t <- py_fdiv (Fin 1) Tpr ;;
  s <- py_ipow (f_sub (Fin 1) t) 2 ;;
  ex <- math_exp (f_mul (Fin (-1.2)) s) ;;
  let alpha := f_mul (f_mul (Fin 0.06125) t) ex in
  let y_initial := 0.001 in
  _ <- fy y_initial alpha Ppr t ;;
  let y := fsolve (fun y => res_value (fy y alpha Ppr t)) y_initial in
  Ok (f_div (f_mul alpha Ppr) y).

(** ** The pressure sweep, lines 172-198 *)

(** Number of elements of [range(start, stop, step)] for [step > 0]. *)
Definition range_len (start stop step : Z) : nat :=
  if (start <? stop)%Z then Z.to_nat ((stop - start + step - 1) / step) else 0%nat.

(** [range(start, stop, step)] for [step > 0]. *)
Definition py_range (start stop step : Z) : list Z :=
  map (fun i => (start + step * Z.of_nat i)%Z) (seq 0 (range_len start stop step)).

(** Line 173, for a finite [P]. *)
Definition pressures (P : R) : list R :=
  14.7 :: map IZR (py_range 200 (py_int (P + 1000) + 1) 200).

(** Line 176: one [Zfac] call per sampled pressure. *)
Definition z_factors (T_rankine : npf) (Tpc_corr Ppc_corr : R) (ps : list R)
  : res (list npf) :=
  mapM (fun p => Tr <- py_fdiv T_rankine (Fin Tpc_corr) ;;
                 Pr <- py_fdiv (Fin p) (Fin Ppc_corr) ;;
                 Zfac Tr Pr) ps.

(** Line 188: [df[df['Pressure (psi)'] == P]]. *)
Definition highlight_point (P : R) (df : list (R * npf)) : list (R * npf) :=
  filter (fun row => if Req_EM_T (fst row) P then true else false) df.

(** Line 195: [highlight_point['Z-factor'].values[0]]. *)
Definition highlight_value (hp : list (R * npf)) : res npf :=
  match hp with
  | [] => Raise IndexError
  | (_, z) :: _ => Ok z
  end.

(** Lines 172-198 for a finite [P]: the table of [(pressure, Z)] rows and
    the value written next to the highlighted point. *)
Definition pressure_sweep (P : R) (T : npf) (Tpc_corr Ppc_corr : R)
  : res (list (R * npf) * npf) :=
  let T_rankine := f_add T (Fin 459.67) in
  let ps := pressures P in
  zs <- z_factors T_rankine Tpc_corr Ppc_corr ps ;;
  let df := combine ps zs in
  let hp := highlight_point P df in
  hz <- highlight_value hp ;;
  Ok (df, hz).

(** ** The button handler, lines 162-198 *)

(** The single Z-factor of line 169 and the sweep. Line 173 converts
    [P + 1000] with [int]: an infinite [P] raises OverflowError there and a
    nan [P] raises ValueError; a finite [P] gives the sweep. *)
Definition handler (P T : npf) (Tpc_corr Ppc_corr : R)
  : res (npf * (list (R * npf) * npf)) :=
  red <- reduced_properties P T Tpc_corr Ppc_corr ;;
  let (Tr, Pr) := red in
  z_factor <- Zfac Tr Pr ;;
  match P with
  | Fin p =>
      sweep <- pressure_sweep p T Tpc_corr Ppc_corr ;;
      Ok (z_factor, sweep)
  | NaN => Raise ValueError
  | _ => Raise OverflowError
  end.

(** Lines 117-198 on the validated inputs [SG], [P], [T] and the three mole
    fractions. *)
Definition calculate (SG P T y_H2S_val y_CO2_val y_N2_val : R)
  : res (npf * (list (R * npf) * npf)) :=
  corr <- wichert_aziz (Tpc SG) (Ppc SG) y_H2S_val y_CO2_val y_N2_val ;;
  let (Tpc_corr, Ppc_corr) := corr in
  handler (Fin P) (Fin T) Tpc_corr Ppc_corr.

End Solver.

(** ** Lines 119-126 over IEEE-754 binary64 *)

Module Binary64.

Local Open Scope float_scope.

(** [a] is an integer, resp. an odd integer, read off its binary64
    mantissa and exponent. *)
Definition is_integer (a : float) : bool :=
  match Prim2SF a with
  | S754_zero _ => true
  | S754_finite _ m ex =>
      ((0 <=? ex)%Z || (Z.pos m mod 2 ^ (- ex) =? 0)%Z)%bool
  | _ => false
  end.

Definition is_odd_integer (a : float) : bool :=
  match Prim2SF a with
  | S754_finite _ m ex =>
      ((ex <=? 0)%Z && (Z.pos m mod 2 ^ (- ex) =? 0)%Z
       && Z.odd (Z.pos m / 2 ^ (- ex)))%bool
  | _ => false
  end.

Section Libm.

(** The platform's [pow], with CPython's errno checks on its result. *)
Variable libm_pow : float -> float -> res float.

(** CPython's float_pow: its own special cases, then the platform's [pow]. *)
Definition py_pow (x a : float) : res float :=
  if PrimFloat.eqb a 0 then Ok 1
  else if PrimFloat.eqb x 0 then
    (if PrimFloat.ltb a 0 then Raise ZeroDivisionError
     else if is_odd_integer a then Ok x else Ok 0)
  else if PrimFloat.ltb x 0 && negb (is_integer a) then Raise NotReal
  else if PrimFloat.eqb x 1 then Ok 1
  else libm_pow x a.

Definition py_div (a b : float) : res float :=
  if PrimFloat.eqb b 0 then Raise ZeroDivisionError else Ok (a / b).

(** Lines 120-121: [(Tpc, Ppc)]. *)
Definition pseudo_critical (SG : float) : res (float * float) :=
  s2 <- py_pow SG 2 ;;
  Ok (169.2 + 349.5 * SG - 74.0 * s2, 756.8 - 131.0 * SG - 3.6 * s2).

(** Lines 124-126: [(Tpc_corr, Ppc_corr)]. *)
Definition wichert_aziz (Tpc Ppc y_H2S_val y_CO2_val y_N2_val : float)
  : res (float * float) :=
  a <- py_pow (y_N2_val + y_CO2_val) 0.9 ;;
  b <- py_pow (y_N2_val + y_CO2_val) 1.6 ;;
  c <- py_pow y_H2S_val 0.5 ;;
  d <- py_pow y_H2S_val 4 ;;
  let ev := 120 * (a - b) + 15 * (c - d) in
  let Tpc_corr := Tpc - ev in
  Ppc_corr <- py_div (Ppc * Tpc_corr)
                (Tpc + y_H2S_val * (1 - y_H2S_val) * (304.2 - Tpc_corr)) ;;
  Ok (Tpc_corr, Ppc_corr).

(** Lines 119-126 from the gas gravity: [((Tpc, Ppc), (Tpc_corr, Ppc_corr))]. *)
Definition corrected_properties (SG y_H2S_val y_CO2_val y_N2_val : float)
  : res ((float * float) * (float * float)) :=
  pc <- pseudo_critical SG ;;
  corr <- wichert_aziz (fst pc) (snd pc) y_H2S_val y_CO2_val y_N2_val ;;
  Ok (pc, corr).

End Libm.

End Binary64.

(** ** Mathematical reading of the correction term (section 4.2) *)

(** The power [x ^ a] of a non-negative [x] for [a > 0]. *)
Definition rpow (x a : R) : R := if Rlt_dec 0 x then Rpower x a else 0.

(** [e] as the specification writes it. *)
Definition wa_e_spec (y_H2S y_CO2 y_N2 : R) : R :=
  120 * (rpow (y_N2 + y_CO2) 0.9 - rpow (y_N2 + y_CO2) 1.6)
  + 15 * (rpow y_H2S 0.5 - y_H2S ^ 4).

(** ** The input fields, lines 30-108 *)

(** What [st.text_input] returns, as the validation reads it: the empty
    string, a text that [float] rejects with ValueError, a text that [float]
    reads as the finite float [r], or one it reads as nan, inf or -inf
    ("nan", "inf", "-inf", "1e999", ...). *)
Inductive field : Type :=
| Empty
| Unparsable
| Num (r : R)
| NumNaN
| NumInf
| NumNegInf.

(** [float(text)]; [None] when it raises ValueError. *)
Definition py_float (f : field) : option npf :=
  match f with
  | Empty | Unparsable => None
  | Num r => Some (Fin r)
  | NumNaN => Some NaN
  | NumInf => Some PInf
  | NumNegInf => Some NInf
  end.

(** [x < c] on a float [x] and a constant [c]: false for nan. *)
Definition f_lt (x : npf) (c : R) : bool :=
  match x with
  | Fin r => if Rlt_dec r c then true else false
  | NInf => true
  | _ => false
  end.

(** A script variable after validation: the empty string the field
    returned (kept when the field is empty), [None], or a float of type
    [F]. *)
Inductive pyval (F : Type) : Type :=
| VStr
| VNone
| VFloat (x : F).
Arguments VStr {F}.
Arguments VNone {F}.
Arguments VFloat {F} x.

(** The two kinds of [st.error] message of lines 39-107. *)
Inductive errmsg : Type :=
| OutOfRange
| NotANumber.

(** Lines 35-43. The chained comparison [0.55 <= SG <= 1.0] is false for
    inf, -inf and nan, so [SG] is left a finite float or [None]. *)
Definition validate_SG (f : field) : pyval R * option errmsg :=
  match f with
  | Empty => (VStr, None)
  | _ =>
      match py_float f with
      | None => (VNone, Some NotANumber)
      | Some (Fin r) =>
          if Rle_dec 0.55 r then
            if Rle_dec r 1.0 then (VFloat r, None) else (VNone, Some OutOfRange)
          else (VNone, Some OutOfRange)
      | Some _ => (VNone, Some OutOfRange)
      end
  end.

(** Lines 50-58: [P < 14.7] is false for inf and nan, which are kept. *)
Definition validate_P (f : field) : pyval npf * option errmsg :=
  match f with
  | Empty => (VStr, None)
  | _ =>
      match py_float f with
      | None => (VNone, Some NotANumber)
      | Some x => if f_lt x 14.7 then (VNone, Some OutOfRange) else (VFloat x, None)
      end
  end.

(** Lines 61-69: likewise with 60. *)
Definition validate_T (f : field) : pyval npf * option errmsg :=
  match f with
  | Empty => (VStr, None)
  | _ =>
      match py_float f with
      | None => (VNone, Some NotANumber)
      | Some x => if f_lt x 60 then (VNone, Some OutOfRange) else (VFloat x, None)
      end
  end.

(** Lines 77-108, for one mole fraction: the value starts at 0 and is reset
    to 0 when the entry is rejected; [0 <= v <= 1] is false for inf, -inf
    and nan. *)
Definition validate_frac (f : field) : R * option errmsg :=
  match f with
  | Empty => (0, None)
  | _ =>
      match py_float f with
      | None => (0, Some NotANumber)
      | Some (Fin r) =>
          if Rle_dec 0 r then
            if Rle_dec r 1 then (r, None) else (0, Some OutOfRange)
          else (0, Some OutOfRange)
      | Some _ => (0, Some OutOfRange)
      end
  end.

(** ** The script run, lines 110-198 *)

(** The names lines 147-157 append ("Gas Gravity", "Pressure", ...). *)
Inductive input_name : Type :=
| GasGravity
| Pressure
| Temperature
| H2S
| CO2
| N2.

Definition is_None {F : Type} (v : pyval F) : bool :=
  match v with VNone => true | _ => false end.

Definition is_empty (f : field) : bool :=
  match f with Empty => true | _ => false end.

(** Lines 145-157: [SG], [P] and [T] are tested against [None], the mole
    fractions through their raw text. *)
Definition missing_inputs (SG : pyval R) (P T : pyval npf) (y_H2S y_CO2 y_N2 : field)
  : list input_name :=
  (if is_None SG then [GasGravity] else [])
  ++ (if is_None P then [Pressure] else [])
  ++ (if is_None T then [Temperature] else [])
  ++ (if is_empty y_H2S then [H2S] else [])
  ++ (if is_empty y_CO2 then [CO2] else [])
  ++ (if is_empty y_N2 then [N2] else []).

(** An uncaught exception: [TypeError] from arithmetic on [None] or on the
    empty string, or one of the model's Python errors. *)
Inductive script_error : Type :=
| TypeError
| PyError (err : pyerr).

(** How one run of the script ends. *)
Inductive outcome : Type :=
| Crashed (err : script_error)
| Idle                                   (* button not clicked *)
| Warned (missing : list input_name)     (* line 160 *)
| Shown (z_factor : npf) (df : list (R * npf)) (hz : npf).

Section Script.

Variable fsolve : (R -> npf) -> R -> npf.

(** The value [Zfac] returns for finite [Tpr] and [Ppr] with [Tpr <> 0]
    and [|1 / Tpr| ^ 3] below the overflow threshold (lemma [Zfac_eq]). *)
Definition Zvalue (Tpr Ppr : R) : npf :=
  f_div (f_mul (Fin (alpha_of (1 / Tpr))) (Fin Ppr))
    (fsolve (fun y => res_value (fy y (Fin (alpha_of (1 / Tpr))) (Fin Ppr)
                                   (Fin (1 / Tpr)))) 0.001).

(** One run of the script on the six fields and the button state. Lines
    110-115 only display the sum of the mole fractions. Line 120 multiplies
    [SG] whatever validation left in it. *)
Definition script (fSG fP fT fH fC fN : field) (clicked : bool) : outcome :=
  let SG := fst (validate_SG fSG) in
  let P := fst (validate_P fP) in
  let T := fst (validate_T fT) in
  let y_H2S_val := fst (validate_frac fH) in
  let y_CO2_val := fst (validate_frac fC) in
  let y_N2_val := fst (validate_frac fN) in
  match SG with
  | VFloat sg =>
      match wichert_aziz (Tpc sg) (Ppc sg) y_H2S_val y_CO2_val y_N2_val with
      | Raise err => Crashed (PyError err)
      | Ok (Tpc_corr, Ppc_corr) =>
          if clicked then
            match missing_inputs SG P T fH fC fN with
            | [] =>
                match T, P with
                | VFloat t, VFloat p =>
                    match handler fsolve p t Tpc_corr Ppc_corr with
                    | Ok (z_factor, (df, hz)) => Shown z_factor df hz
                    | Raise err => Crashed (PyError err)
                    end
                | _, _ => Crashed TypeError
                end
            | missing => Warned missing
            end
          else Idle
      end
  | _ => Crashed TypeError
  end.

End Script.

(** * Proofs *)

Ltac R_cases :=
  repeat match goal with
  | |- context [Req_EM_T ?a ?b] => destruct (Req_EM_T a b); try lra
  | |- context [Rlt_dec ?a ?b] => destruct (Rlt_dec a b); try lra
  | |- context [Rle_dec ?a ?b] => destruct (Rle_dec a b); try lra
  end.

(** ** Real powers *)

Lemma ln_nonpos (x : R) : 0 < x -> x <= 1 -> ln x <= 0.
Proof.
  intros Hx H1. destruct (Rle_lt_or_eq_dec _ _ H1) as [Hlt | ->].
  - rewrite <- ln_1. left. apply ln_increasing; lra.
  - rewrite ln_1. lra.
Qed.

Lemma Rpower_antitone (x a b : R) :
  0 < x -> x <= 1 -> a <= b -> Rpower x b <= Rpower x a.
Proof.
  intros Hx H1 Hab. unfold Rpower.
  pose proof (ln_nonpos x Hx H1) as Hl.
  assert (Hm : b * ln x <= a * ln x) by nra.
  destruct (Rle_lt_or_eq_dec _ _ Hm) as [Hlt | Heq].
  - left. apply exp_increasing. exact Hlt.
  - rewrite Heq. lra.
Qed.

Lemma Rpower_le_1 (x a : R) : 0 < x -> x <= 1 -> 0 <= a -> Rpower x a <= 1.
Proof.
  intros Hx H1 Ha. rewrite <- (Rpower_O x Hx). apply Rpower_antitone; lra.
Qed.

Lemma Rpower_pos (x a : R) : 0 < Rpower x a.
Proof. unfold Rpower. apply exp_pos. Qed.

Lemma py_fpow_nonneg (x a : R) :
  0 <= x -> 0 < a -> py_fpow x a = Ok (rpow x a).
Proof. intros Hx Ha. unfold py_fpow, rpow. R_cases; reflexivity. Qed.

Lemma e_ok (yH yC yN : R) :
  0 <= yH -> 0 <= yC + yN -> e yH yC yN = Ok (wa_e_spec yH yC yN).
Proof.
  intros HH HCN. unfold e, wa_e_spec.
  rewrite (Rplus_comm yN yC).
  rewrite !py_fpow_nonneg by lra. reflexivity.
Qed.

Lemma wa_e_spec_bounds (yH yC yN : R) :
  0 <= yH <= 1 -> 0 <= yC -> 0 <= yN -> yC + yN <= 1 ->
  0 <= wa_e_spec yH yC yN <= 135.
Proof.
  intros HH HC HN HCN. unfold wa_e_spec, rpow.
  assert (Hx : 0 <= rpow (yN + yC) 0.9 - rpow (yN + yC) 1.6 <= 1).
  { unfold rpow. R_cases.
    pose proof (Rpower_antitone (yN + yC) 0.9 1.6 r ltac:(lra) ltac:(lra)).
    pose proof (Rpower_le_1 (yN + yC) 0.9 r ltac:(lra) ltac:(lra)).
    pose proof (Rpower_pos (yN + yC) 1.6). lra. }
  assert (Hy : 0 <= rpow yH 0.5 - yH ^ 4 <= 1).
  { unfold rpow. R_cases.
    - rewrite <- (Rpower_pow 4 yH r). simpl INR.
      replace (1 + 1 + 1 + 1) with 4 by lra.
      pose proof (Rpower_antitone yH 0.5 4 r ltac:(lra) ltac:(lra)).
      pose proof (Rpower_le_1 yH 0.5 r ltac:(lra) ltac:(lra)).
      pose proof (Rpower_pos yH 4). lra.
    - assert (yH = 0) as -> by lra. simpl. lra. }
  unfold rpow in Hx, Hy. lra.
Qed.

Lemma h2s_weight_bounds (h : R) : 0 <= h <= 1 -> 0 <= h * (1 - h) <= / 4.
Proof.
  intros H. split.
  - apply Rmult_le_pos; lra.
  - pose proof (pow2_ge_0 (h - / 2)). simpl in *. nra.
Qed.

(** The denominator of line 126 is positive on validated inputs. *)
Lemma wa_denominator_pos (Tpc0 ev h : R) :
  0 < Tpc0 -> 0 <= ev -> 0 <= h <= 1 ->
  0 < Tpc0 + h * (1 - h) * (304.2 - (Tpc0 - ev)).
Proof.
  intros HT He Hh. pose proof (h2s_weight_bounds h Hh) as [Hw0 Hw1].
  destruct (Rle_dec 0 (304.2 - (Tpc0 - ev))) as [Hd | Hd].
  - assert (0 <= h * (1 - h) * (304.2 - (Tpc0 - ev))) by nra. lra.
  - assert (h * (1 - h) * (304.2 - (Tpc0 - ev)) >= / 4 * (304.2 - (Tpc0 - ev)))
      by nra.
    lra.
Qed.

Lemma Tpc_pos (SG : R) : 0.55 <= SG <= 1 -> 320 < Tpc SG.
Proof. intros H. unfold Tpc. simpl. nra. Qed.

Lemma Ppc_pos (SG : R) : 0.55 <= SG <= 1 -> 600 < Ppc SG.
Proof. intros H. unfold Ppc. simpl. nra. Qed.

(** ** Correlation and correction *)

(** Zero mole fractions: [e] is 0 and the correction returns its arguments
    in exact arithmetic, whenever [Tpc <> 0]. *)
Lemma wichert_aziz_zero_R (Tpc0 Ppc0 : R) :
  Tpc0 <> 0 -> wichert_aziz Tpc0 Ppc0 0 0 0 = Ok (Tpc0, Ppc0).
Proof.
  intros HT. unfold wichert_aziz.
  rewrite e_ok by lra. unfold wa_e_spec, rpow. simpl bind.
  R_cases. unfold py_div. R_cases. cbn [bind].
  f_equal. f_equal; [ring | field; lra].
Qed.

Lemma wichert_aziz_domain (Tpc0 Ppc0 yH yC yN : R) :
  0 < Tpc0 -> 0 <= yH <= 1 -> 0 <= yC -> 0 <= yN -> yC + yN <= 1 ->
  wichert_aziz Tpc0 Ppc0 yH yC yN =
    Ok (Tpc0 - wa_e_spec yH yC yN,
        Ppc0 * (Tpc0 - wa_e_spec yH yC yN)
        / (Tpc0 + yH * (1 - yH) * (304.2 - (Tpc0 - wa_e_spec yH yC yN)))).
Proof.
  intros HT HH HC HN HCN. unfold wichert_aziz.
  rewrite e_ok by lra. simpl bind. unfold py_div.
  pose proof (wa_e_spec_bounds yH yC yN HH HC HN HCN).
  pose proof (wa_denominator_pos Tpc0 (wa_e_spec yH yC yN) yH HT
                ltac:(lra) HH).
  R_cases. reflexivity.
Qed.


(** C9: for every gas gravity SG in [0.55, 1.0], Sutton's correlation gives
    Tpc = 169.2 + 349.5 SG - 74.0 SG^2 and Ppc = 756.8 - 131.0 SG - 3.6 SG^2;
    both are positive there, so nothing downstream fails on them. *)
Theorem sutton_correlation (SG : R) (HSG : 0.55 <= SG <= 1) :
  Tpc SG = 169.2 + 349.5 * SG - 74.0 * SG ^ 2 /\
  Ppc SG = 756.8 - 131.0 * SG - 3.6 * SG ^ 2 /\
  0 < Tpc SG /\ 0 < Ppc SG.
Proof.
  pose proof (Tpc_pos SG HSG). pose proof (Ppc_pos SG HSG).
  repeat split; try reflexivity; lra.
Qed.

Lemma sutton_correlation_witness :
  0.55 <= 0.75 <= 1 /\
  Tpc 0.75 = 169.2 + 349.5 * 0.75 - 74.0 * 0.75 ^ 2 /\
  Ppc 0.75 = 756.8 - 131.0 * 0.75 - 3.6 * 0.75 ^ 2 /\
  0 < Tpc 0.75 /\ 0 < Ppc 0.75.
Proof.
  split; [lra |]. apply (sutton_correlation 0.75). lra.
Defined.

(** C5 (counterexample): at SG = 0.75 the correlation gives Tpc = 389.7 and
    Ppc = 656.525, 3.7 and 1.925 away from the figures 386.0 and 654.6. *)
Lemma sutton_075_not_386 :
  3 < Tpc 0.75 - 386.0 /\ 1.9 < Ppc 0.75 - 654.6.
Proof. unfold Tpc, Ppc. simpl. lra. Qed.

(** C5 (amended): for SG = 0.75 and zero contaminants the correlation gives
    exactly Tpc = 389.7 and Ppc = 656.525, and the correction leaves them
    unchanged. *)
Theorem sutton_075 :
  Tpc 0.75 = 389.7 /\ Ppc 0.75 = 656.525 /\
  wichert_aziz (Tpc 0.75) (Ppc 0.75) 0 0 0 = Ok (389.7, 656.525).
Proof.
  assert (HT : Tpc 0.75 = 389.7) by (unfold Tpc; simpl; lra).
  assert (HP : Ppc 0.75 = 656.525) by (unfold Ppc; simpl; lra).
  split; [exact HT | split; [exact HP |]].
  rewrite HT, HP. apply wichert_aziz_zero_R. lra.
Qed.

(** C7: for Tpc > 0 and mole fractions in [0, 1] with yN2 + yCO2 <= 1 the
    correction computes e = 120 ((yN2+yCO2)^0.9 - (yN2+yCO2)^1.6)
    + 15 (yH2S^0.5 - yH2S^4), TpcCorr = Tpc - e and
    PpcCorr = Ppc TpcCorr / (Tpc + yH2S (1 - yH2S) (304.2 - TpcCorr)); its
    division never raises there, the denominator being positive. *)
Theorem wichert_aziz_formula (Tpc0 Ppc0 yH yC yN : R)
  (HT : 0 < Tpc0) (HH : 0 <= yH <= 1) (HC : 0 <= yC <= 1) (HN : 0 <= yN <= 1)
  (HCN : yH + yC + yN <= 1) :
  e yH yC yN = Ok (wa_e_spec yH yC yN) /\
  wichert_aziz Tpc0 Ppc0 yH yC yN =
    Ok (Tpc0 - wa_e_spec yH yC yN,
        Ppc0 * (Tpc0 - wa_e_spec yH yC yN)
        / (Tpc0 + yH * (1 - yH) * (304.2 - (Tpc0 - wa_e_spec yH yC yN)))) /\
  0 < Tpc0 + yH * (1 - yH) * (304.2 - (Tpc0 - wa_e_spec yH yC yN)).
Proof.
  split; [apply e_ok; lra |]. split; [apply wichert_aziz_domain; lra |].
  apply wa_denominator_pos; [lra | | lra].
  apply (wa_e_spec_bounds yH yC yN); lra.
Qed.

Lemma wichert_aziz_formula_witness :
  (0 < 389.7 /\ 0 <= 0.1 <= 1 /\ 0.1 + 0.1 + 0.1 <= 1) /\
  let ev := wa_e_spec 0.1 0.1 0.1 in
  e 0.1 0.1 0.1 = Ok ev /\
  wichert_aziz 389.7 656.525 0.1 0.1 0.1 =
    Ok (389.7 - ev, 656.525 * (389.7 - ev)
                    / (389.7 + 0.1 * (1 - 0.1) * (304.2 - (389.7 - ev)))) /\
  0 < 389.7 + 0.1 * (1 - 0.1) * (304.2 - (389.7 - ev)).
Proof.
  split; [lra |].
  apply (wichert_aziz_formula 389.7 656.525 0.1 0.1 0.1); lra.
Defined.

(** Binary64 evaluation of lines 119-126 at SG = 1.0 with no contaminants:
    every power is one CPython settles itself (1.0 ** 2, 0.0 ** a), so the
    result does not depend on the platform's [pow]. *)
Lemma corrected_properties_SG1 (libm_pow : PrimFloat.float -> PrimFloat.float -> res PrimFloat.float) :
  Binary64.corrected_properties libm_pow 1%float 0%float 0%float 0%float =
    Ok ((444.70000000000005%float, 622.19999999999993%float),
        (444.70000000000005%float, 622.20000000000005%float)).
Proof. vm_compute. reflexivity. Qed.

Lemma float_622_neq : 622.20000000000005%float <> 622.19999999999993%float.
Proof.
  intros H. assert (Hb : PrimFloat.eqb 622.20000000000005 622.19999999999993 = true)
    by (rewrite H; vm_compute; reflexivity).
  vm_compute in Hb. discriminate Hb.
Qed.

(** C8 (counterexample): in the program's binary64 arithmetic, zero mole
    fractions do not return [Ppc] exactly: with Tpc = 444.70000000000005 and
    Ppc = 622.19999999999993 (what SG = 1.0 gives) the correction returns
    PpcCorr = 622.20000000000005, whatever the platform's [pow]. *)
Lemma wichert_aziz_zero_binary64_cex :
  ~ (exists libm_pow, forall Tpc0 Ppc0,
       Binary64.wichert_aziz libm_pow Tpc0 Ppc0 0%float 0%float 0%float
       = Ok (Tpc0, Ppc0)).
Proof.
  intros [libm_pow H].
  specialize (H 444.70000000000005%float 622.19999999999993%float).
  vm_compute in H.
  apply (f_equal (fun r => match r with Ok (_, p) => p | Raise _ => 0%float end)) in H.
  exact (float_622_neq H).
Qed.

(** C8 (amended): with yH2S = yCO2 = yN2 = 0 the correction term is 0 and
    the correction returns (Tpc, Ppc) exactly in exact arithmetic for every
    Tpc <> 0 (every Tpc a valid SG yields is positive); in binary64 PpcCorr is
    the rounded Ppc * Tpc / Tpc, which at SG = 1.0 is one unit in the last
    place above Ppc. *)
Theorem wichert_aziz_zero_contaminants :
  e 0 0 0 = Ok 0 /\
  (forall Tpc0 Ppc0, Tpc0 <> 0 -> wichert_aziz Tpc0 Ppc0 0 0 0 = Ok (Tpc0, Ppc0)) /\
  (forall SG, 0.55 <= SG <= 1 -> 0 < Tpc SG) /\
  (forall libm_pow,
     Binary64.corrected_properties libm_pow 1%float 0%float 0%float 0%float =
       Ok ((444.70000000000005%float, 622.19999999999993%float),
           (444.70000000000005%float, 622.20000000000005%float))).
Proof.
  split; [| split; [| split]].
  - rewrite e_ok by lra. f_equal. unfold wa_e_spec, rpow. R_cases.
  - exact wichert_aziz_zero_R.
  - intros SG HSG. pose proof (Tpc_pos SG HSG). lra.
  - exact corrected_properties_SG1.
Qed.


(** ** Floats and overflow *)

Lemma ovf_bounds : 1e308 < float_overflow < 2e308.
Proof.
  unfold float_overflow. rewrite !Rmult_1_l.
  split; [| rewrite <- mult_IZR]; apply IZR_lt; vm_compute; reflexivity.
Qed.

Lemma float_max_bounds : 1e308 < float_max /\ float_max + 1e290 < float_overflow.
Proof.
  unfold float_max, float_overflow. rewrite !Rmult_1_l.
  split; [| rewrite <- plus_IZR]; apply IZR_lt; vm_compute; reflexivity.
Qed.

Lemma Rabs_lt_of (r B : R) : -B < r < B -> Rabs r < B.
Proof. intros [H1 H2]. apply Rabs_def1; lra. Qed.

Lemma Rabs_bounds (r : R) : - Rabs r <= r <= Rabs r.
Proof.
  split; [| apply RRle_abs].
  pose proof (Rabs_Ropp r). pose proof (RRle_abs (- r)). lra.
Qed.

Lemma np_fin_small (r : R) : Rabs r < float_overflow -> np_fin r = Fin r.
Proof. intros H. unfold np_fin. R_cases. reflexivity. Qed.

Lemma np_fin_big (r : R) : float_overflow <= Rabs r -> np_fin r = inf_sign r.
Proof. intros H. unfold np_fin, inf_sign. R_cases; reflexivity. Qed.

Lemma abs_cube_small (x : R) : Rabs x ^ 3 < float_overflow -> Rabs x < 1e103.
Proof.
  intros H. pose proof ovf_bounds. pose proof (Rabs_pos x).
  destruct (Rlt_dec (Rabs x) 1e103) as [Hl | Hl]; [exact Hl | exfalso].
  assert (1e309 <= Rabs x ^ 3).
  { replace 1e309 with (1e103 ^ 3) by lra. apply pow_incr. lra. }
  lra.
Qed.

Lemma abs_square_of_cube (x : R) : Rabs x ^ 3 < float_overflow -> Rabs x ^ 2 < float_overflow.
Proof.
  intros H. pose proof ovf_bounds. pose proof (Rabs_pos x).
  destruct (Rle_dec (Rabs x) 1) as [Hl | Hl].
  - assert (Rabs x ^ 2 <= 1) by (simpl; nra). lra.
  - assert (Rabs x ^ 2 <= Rabs x ^ 3) by (simpl; nra). lra.
Qed.

Lemma exp_nonpos_le_1 (x : R) : x <= 0 -> exp x <= 1.
Proof.
  intros H. rewrite <- exp_0.
  destruct (Rle_lt_or_eq_dec _ _ H) as [Hlt | ->]; [left; apply exp_increasing; exact Hlt | lra].
Qed.

Lemma py_ipow_raise (x : npf) (n : nat) (err : pyerr) :
  py_ipow x n = Raise err -> err = OverflowError.
Proof.
  destruct x as [r | | |]; cbn [py_ipow]; try discriminate.
  destruct (Rlt_dec _ _); [discriminate | congruence].
Qed.

Lemma math_exp_raise (x : npf) (err : pyerr) :
  math_exp x = Raise err -> err = OverflowError.
Proof.
  destruct x as [r | | |]; cbn [math_exp]; try discriminate.
  destruct (Rlt_dec _ _); [discriminate | congruence].
Qed.

(** ** The residual: where it raises *)

(** [fy] raises only from [t ** 2] and [t ** 3], whatever [y]. *)
Lemma fy_raise_indep (y y' : R) (alpha Ppr t : npf) (err : pyerr) :
  fy y alpha Ppr t = Raise err -> fy y' alpha Ppr t = Raise err.
Proof.
  unfold fy.
  destruct (py_ipow t 2); cbn [bind]; [destruct (py_ipow t 3); cbn [bind] |];
    congruence.
Qed.

Lemma fy_raise (y : R) (alpha Ppr t : npf) (err : pyerr) :
  fy y alpha Ppr t = Raise err -> err = OverflowError.
Proof.
  unfold fy.
  destruct (py_ipow t 2) eqn:E2; cbn [bind];
    [destruct (py_ipow t 3) eqn:E3; cbn [bind] |]; intros H; try discriminate H;
    injection H as <-; eapply py_ipow_raise; eassumption.
Qed.

Lemma fy_ok (y : R) (alpha Ppr : npf) (t : R) :
  Rabs t ^ 3 < float_overflow -> exists v, fy y alpha Ppr (Fin t) = Ok v.
Proof.
  intros H. pose proof (abs_square_of_cube t H).
  unfold fy. cbn [py_ipow]. rewrite <- !RPow_abs. R_cases.
  eexists; reflexivity.
Qed.

Lemma fy_overflow (y : R) (alpha Ppr : npf) (t : R) :
  float_overflow <= Rabs t ^ 3 -> fy y alpha Ppr (Fin t) = Raise OverflowError.
Proof.
  intros H. unfold fy. cbn [py_ipow]. rewrite <- !RPow_abs. R_cases; reflexivity.
Qed.

(** ** [Zfac]: its value and its exceptions *)

Lemma py_fdiv_one (Tpr : R) :
  Tpr <> 0 -> Rabs (1 / Tpr) < float_overflow ->
  py_fdiv (Fin 1) (Fin Tpr) = Ok (Fin (1 / Tpr)).
Proof.
  intros HT H. unfold py_fdiv, f_div. R_cases. rewrite np_fin_small by exact H.
  reflexivity.
Qed.

Lemma Zfac_eq (fsolve : (R -> npf) -> R -> npf) (Tpr : R) (Ppr : npf) :
  Tpr <> 0 -> Rabs (1 / Tpr) ^ 3 < float_overflow ->
  Zfac fsolve (Fin Tpr) Ppr =
    Ok (f_div (f_mul (Fin (alpha_of (1 / Tpr))) Ppr)
          (fsolve (fun y => res_value (fy y (Fin (alpha_of (1 / Tpr))) Ppr
                                          (Fin (1 / Tpr)))) 0.001)).
Proof.
  intros HT HO. pose proof ovf_bounds as Hb.
  pose proof (abs_cube_small _ HO) as Ht.
  pose proof (Rabs_bounds (1 / Tpr)) as Htb.
  unfold Zfac. rewrite py_fdiv_one by (auto; lra). cbn [bind].
  set (t := 1 / Tpr) in *.
  assert (E2 : f_sub (Fin 1) (Fin t) = Fin (1 - t)).
  { apply np_fin_small. apply Rabs_lt_of. lra. }
  assert (Hs : 0 <= (1 - t) ^ 2 < 1e207) by (split; [apply pow2_ge_0 | nra]).
  assert (E3 : py_ipow (Fin (1 - t)) 2 = Ok (Fin ((1 - t) ^ 2))).
  { cbn [py_ipow]. rewrite Rabs_pos_eq by lra. R_cases. reflexivity. }
  assert (E4 : f_mul (Fin (-1.2)) (Fin ((1 - t) ^ 2)) = Fin (-1.2 * (1 - t) ^ 2)).
  { apply np_fin_small. apply Rabs_lt_of. lra. }
  pose proof (exp_nonpos_le_1 (-1.2 * (1 - t) ^ 2) ltac:(lra)) as Hex.
  pose proof (exp_pos (-1.2 * (1 - t) ^ 2)) as Hex0.
  assert (E5 : math_exp (Fin (-1.2 * (1 - t) ^ 2)) = Ok (Fin (exp (-1.2 * (1 - t) ^ 2)))).
  { cbn [math_exp]. R_cases. reflexivity. }
  assert (E6 : f_mul (f_mul (Fin 0.06125) (Fin t)) (Fin (exp (-1.2 * (1 - t) ^ 2)))
               = Fin (alpha_of t)).
  { cbn [f_mul]. rewrite (np_fin_small (0.06125 * t)) by (apply Rabs_lt_of; lra).
    apply np_fin_small. apply Rabs_lt_of. unfold alpha_of.
    assert (Hp1 : 0 <= (1e103 - t) * exp (-1.2 * (1 - t) ^ 2))
      by (apply Rmult_le_pos; lra).
    assert (Hp2 : 0 <= (t + 1e103) * exp (-1.2 * (1 - t) ^ 2))
      by (apply Rmult_le_pos; lra).
    split; lra. }
  rewrite E2, E3. cbn [bind]. rewrite E4, E5. cbn [bind]. rewrite E6.
  destruct (fy_ok 0.001 (Fin (alpha_of t)) Ppr t HO) as [v Hv].
  rewrite Hv. reflexivity.
Qed.

Lemma Zfac_zero (fsolve : (R -> npf) -> R -> npf) (Ppr : npf) :
  Zfac fsolve (Fin 0) Ppr = Raise ZeroDivisionError.
Proof. unfold Zfac, py_fdiv. R_cases. reflexivity. Qed.

Lemma Zfac_overflow (fsolve : (R -> npf) -> R -> npf) (Tpr : R) (Ppr : npf) :
  Tpr <> 0 -> Rabs (1 / Tpr) < float_overflow -> float_overflow <= Rabs (1 / Tpr) ^ 3 ->
  Zfac fsolve (Fin Tpr) Ppr = Raise OverflowError.
Proof.
  intros HT H1 H3. unfold Zfac. rewrite py_fdiv_one by assumption. cbn [bind].
  destruct (py_ipow _ 2) as [s | err] eqn:Hs; cbn [bind];
    [| rewrite (py_ipow_raise _ _ _ Hs); reflexivity].
  destruct (math_exp _) as [ex | err] eqn:He; cbn [bind];
    [| rewrite (math_exp_raise _ _ He); reflexivity].
  rewrite fy_overflow by exact H3. reflexivity.
Qed.

(** Every exception [Zfac] raises on a finite [Tpr]: ZeroDivisionError at
    [1 / Tpr] for [Tpr = 0], otherwise an OverflowError, and only when
    [(1 / Tpr) ^ 3] overflows. *)
Lemma Zfac_raise (fsolve : (R -> npf) -> R -> npf) (Tpr : R) (Ppr : npf) (err : pyerr) :
  Zfac fsolve (Fin Tpr) Ppr = Raise err ->
  (Tpr = 0 /\ err = ZeroDivisionError) \/
  (Tpr <> 0 /\ float_overflow <= Rabs (1 / Tpr) ^ 3 /\ err = OverflowError).
Proof.
  intros H. destruct (Req_EM_T Tpr 0) as [-> | HT].
  - left. split; [reflexivity |]. rewrite Zfac_zero in H. congruence.
  - right. split; [exact HT |].
    destruct (Rlt_dec (Rabs (1 / Tpr) ^ 3) float_overflow) as [HO | HO].
    + rewrite Zfac_eq in H by assumption. discriminate H.
    + split; [lra |]. revert H. unfold Zfac, py_fdiv. R_cases. cbn [bind].
      destruct (py_ipow _ 2) as [s | e1] eqn:Hs; cbn [bind];
        [| intros H; injection H as <-; eapply py_ipow_raise; eassumption].
      destruct (math_exp _) as [ex | e2] eqn:He; cbn [bind];
        [| intros H; injection H as <-; eapply math_exp_raise; eassumption].
      destruct (fy _ _ _ _) as [v | e3] eqn:Hf; cbn [bind]; [discriminate |].
      intros H; injection H as <-. eapply fy_raise; eassumption.
Qed.

(** [alpha] is positive and at most 0.1 for [t > 0]. *)
Lemma alpha_of_bounds (t : R) : 0 < t -> 0 < alpha_of t <= 0.1.
Proof.
  intros Ht. unfold alpha_of.
  assert (Hu : 0 <= (1 - t) ^ 2) by apply pow2_ge_0.
  pose proof (exp_pos (-1.2 * (1 - t) ^ 2)) as HE.
  pose proof (exp_ineq1_le (1.2 * (1 - t) ^ 2)) as H1.
  assert (HP : exp (-1.2 * (1 - t) ^ 2) * exp (1.2 * (1 - t) ^ 2) = 1).
  { rewrite <- exp_plus. replace (-1.2 * (1 - t) ^ 2 + 1.2 * (1 - t) ^ 2) with 0 by lra.
    apply exp_0. }
  assert (Hq : 0.06125 * t <= 0.1 * (1 + 1.2 * (1 - t) ^ 2)) by nra.
  split; [apply Rmult_lt_0_compat; lra |].
  assert (exp (-1.2 * (1 - t) ^ 2) * (1 + 1.2 * (1 - t) ^ 2) <= 1) by nra.
  nra.
Qed.

(** ** The residual on finite inputs *)

Ltac fin_small :=
  match goal with
  | |- context [np_fin ?r] =>
      lazymatch r with
      | context [np_fin _] => fail
      | _ => rewrite (np_fin_small r) by (apply Rabs_lt_of; split; lra)
      end
  end.

Ltac fin_eval :=
  repeat (cbn [f_add f_sub f_mul f_div f_neg np_ipow np_pow bind]; R_cases;
          try fin_small).

Lemma mul_unit_bound (a b : R) : 0 <= a -> 0 <= b <= 1 -> 0 <= a * b <= a.
Proof.
  intros Ha Hb. split; [apply Rmult_le_pos; lra |].
  rewrite <- (Rmult_1_r a) at 2. apply Rmult_le_compat_l; lra.
Qed.

Lemma mul_abs_bound (a b : R) : Rabs a <= 1 -> 0 <= b -> - b <= a * b <= b.
Proof.
  intros Ha Hb. pose proof (Rabs_bounds (a * b)) as H.
  rewrite Rabs_mult, (Rabs_pos_eq b Hb) in H.
  assert (Rabs a * b <= 1 * b) by (apply Rmult_le_compat_r; lra). lra.
Qed.

Lemma fy_finite (y alpha Ppr t : R) :
  0 < y -> 1e-100 <= 1 - y -> 0 < t <= 1e100 -> Rabs alpha <= 1 -> 0 <= Ppr <= 1e300 ->
  fy y (Fin alpha) (Fin Ppr) (Fin t) = Ok (Fin (hy_residual_spec alpha Ppr t y)).
Proof.
  intros Hy H1y Ht Ha HP. pose proof ovf_bounds as Hb.
  pose proof (Rabs_bounds alpha) as Hab.
  assert (Hy1 : 0 <= y < 1) by lra.
  assert (Hy2 : 0 < y ^ 2 < 1)
    by (split; [apply pow_lt; lra | apply pow_lt_1_compat; [lra | lia]]).
  assert (Hy3 : 0 < y ^ 3 < 1)
    by (split; [apply pow_lt; lra | apply pow_lt_1_compat; [lra | lia]]).
  assert (Hy4 : 0 < y ^ 4 < 1)
    by (split; [apply pow_lt; lra | apply pow_lt_1_compat; [lra | lia]]).
  assert (Ht2 : 0 < t ^ 2 <= 1e200).
  { split; [apply pow_lt; lra |]. replace 1e200 with (1e100 ^ 2) by lra.
    apply pow_incr; lra. }
  assert (Ht3 : 0 < t ^ 3 <= 1e300).
  { split; [apply pow_lt; lra |]. replace 1e300 with (1e100 ^ 3) by lra.
    apply pow_incr; lra. }
  assert (Hd : 1e-300 <= (1 - y) ^ 3 <= 1).
  { split; [replace 1e-300 with (1e-100 ^ 3) by lra; apply pow_incr; lra |].
    rewrite <- (pow1 3). apply pow_incr; lra. }
  assert (Hy43 : y ^ 4 < y ^ 3).
  { replace (y ^ 4) with (y ^ 3 * y) by ring.
    pose proof (Rmult_lt_compat_l (y ^ 3) y 1 ltac:(lra) ltac:(lra)). lra. }
  assert (Hnum : 0 < y + y ^ 2 + y ^ 3 - y ^ 4 < 4) by lra.
  assert (Hq : 0 < (y + y ^ 2 + y ^ 3 - y ^ 4) / (1 - y) ^ 3 <= 4e300).
  { split; [apply Rdiv_lt_0_compat; lra |].
    apply Rmult_le_reg_r with ((1 - y) ^ 3); [lra |].
    unfold Rdiv. rewrite Rmult_assoc, Rinv_l by lra. nra. }
  assert (Hpw : 0 < Rpower y (2.18 + 2.82 * t) <= 1).
  { split; [apply Rpower_pos | apply Rpower_le_1; lra]. }
  pose proof (mul_abs_bound alpha Ppr Ha ltac:(lra)) as Hm.
  pose proof (mul_unit_bound (t) (y ^ 2) ltac:(lra) ltac:(lra)) as Hty1.
  pose proof (mul_unit_bound (t ^ 2) (y ^ 2) ltac:(lra) ltac:(lra)) as Hty2.
  pose proof (mul_unit_bound (t ^ 3) (y ^ 2) ltac:(lra) ltac:(lra)) as Hty3.
  pose proof (mul_unit_bound (t) (Rpower y (2.18 + 2.82 * t)) ltac:(lra) ltac:(lra)) as Htp1.
  pose proof (mul_unit_bound (t ^ 2) (Rpower y (2.18 + 2.82 * t)) ltac:(lra) ltac:(lra)) as Htp2.
  pose proof (mul_unit_bound (t ^ 3) (Rpower y (2.18 + 2.82 * t)) ltac:(lra) ltac:(lra)) as Htp3.
  assert (Ht2a : Rabs (t ^ 2) < float_overflow) by (rewrite Rabs_pos_eq; lra).
  assert (Ht3a : Rabs (t ^ 3) < float_overflow) by (rewrite Rabs_pos_eq; lra).
  unfold fy, hy_residual_spec. cbn [py_ipow]. R_cases.
  unfold Rminus in *.
  fin_eval.
  all: reflexivity.
Qed.

(** ** The Z-factor solver *)

Lemma inv_le_1e100 (Tpr : R) : 1e-100 <= Tpr -> 0 < 1 / Tpr <= 1e100.
Proof.
  intros H. split; [apply Rdiv_lt_0_compat; lra |].
  apply Rmult_le_reg_r with Tpr; [lra |].
  unfold Rdiv. rewrite Rmult_assoc, Rinv_l, Rmult_1_r by lra. lra.
Qed.

Lemma f_div_mul_fin (a Ppr ys : R) :
  Rabs (a * Ppr) < float_overflow -> ys <> 0 -> Rabs (a * Ppr / ys) < float_overflow ->
  f_div (f_mul (Fin a) (Fin Ppr)) (Fin ys) = Fin (a * Ppr / ys).
Proof.
  intros H1 Hy H2. cbn [f_mul]. rewrite np_fin_small by exact H1.
  cbn [f_div]. R_cases. apply np_fin_small. exact H2.
Qed.

Lemma f_div_mul_zero (a Ppr : R) :
  f_div (f_mul (Fin a) (Fin Ppr)) (Fin 0) =
    if Req_EM_T (a * Ppr) 0 then NaN else inf_sign (a * Ppr).
Proof.
  cbn [f_mul]. destruct (Req_EM_T (a * Ppr) 0) as [E | E].
  - rewrite E, np_fin_small by (rewrite Rabs_R0; pose proof ovf_bounds; lra).
    cbn [f_div]. R_cases. reflexivity.
  - unfold np_fin, f_div, inf_sign. R_cases; reflexivity.
Qed.

(** C6 (counterexample): for Tpr = 1e-103 (t = 1e103) and Ppr = 1, the
    first evaluation of the residual computes [t ** 3] = 1e309, which
    overflows: [Zfac] raises OverflowError and returns no Z. *)
Lemma Zfac_small_Tpr_overflow_cex :
  Zfac (fun _ _ => Fin 0.001) (Fin 1e-103) (Fin 1) = Raise OverflowError.
Proof.
  pose proof ovf_bounds.
  apply Zfac_overflow; replace (1 / 1e-103) with 1e103 by lra;
    rewrite ?Rabs_pos_eq by lra; lra.
Qed.

(** C6 (amended): for 1e-100 <= Tpr and 0 <= Ppr <= 1e300, [Zfac] computes
    t = 1/Tpr and alpha = 0.06125 t exp(-1.2 (1-t)^2), hands the residual
    (equal to the formula of the specification for 0 < y and 1 - y >= 1e-100)
    and the initial guess 0.001 to the root search, and returns alpha Ppr / y
    for whatever y the search returns, a root or not. *)
Theorem Zfac_hall_yarborough_search (fsolve : (R -> npf) -> R -> npf) (Tpr Ppr : R)
  (HT : 1e-100 <= Tpr) (HP : 0 <= Ppr <= 1e300) :
  let t := 1 / Tpr in
  let alpha := 0.06125 * t * exp (-1.2 * (1 - t) ^ 2) in
  let f := fun y => res_value (fy y (Fin alpha) (Fin Ppr) (Fin t)) in
  (forall y, 0 < y -> 1e-100 <= 1 - y ->
     fy y (Fin alpha) (Fin Ppr) (Fin t) = Ok (Fin (hy_residual_spec alpha Ppr t y))) /\
  Zfac fsolve (Fin Tpr) (Fin Ppr) = Ok (f_div (f_mul (Fin alpha) (Fin Ppr)) (fsolve f 0.001)) /\
  (forall ystar, fsolve f 0.001 = Fin ystar -> ystar <> 0 ->
     Rabs (alpha * Ppr / ystar) < float_overflow ->
     Zfac fsolve (Fin Tpr) (Fin Ppr) = Ok (Fin (alpha * Ppr / ystar))).
Proof.
  intros t alpha f. pose proof ovf_bounds as Hb.
  pose proof (inv_le_1e100 Tpr HT) as Ht. fold t in Ht.
  pose proof (alpha_of_bounds t ltac:(lra)) as Ha.
  assert (Haa : Rabs alpha <= 1) by (apply Rabs_le; unfold alpha; fold (alpha_of t); lra).
  assert (HO : Rabs t ^ 3 < float_overflow).
  { rewrite Rabs_pos_eq by lra.
    assert (t ^ 3 <= 1e100 ^ 3) by (apply pow_incr; lra). lra. }
  assert (HZ : Zfac fsolve (Fin Tpr) (Fin Ppr) =
               Ok (f_div (f_mul (Fin alpha) (Fin Ppr)) (fsolve f 0.001)))
    by (apply Zfac_eq; [lra | exact HO]).
  split; [intros y Hy H1y; apply fy_finite; lra |].
  split; [exact HZ |].
  intros ystar Hs Hn Hq. rewrite HZ, Hs. f_equal. apply f_div_mul_fin; [| exact Hn | exact Hq].
  pose proof (mul_abs_bound alpha Ppr Haa ltac:(lra)). apply Rabs_lt_of. lra.
Qed.

Lemma Zfac_hall_yarborough_search_witness :
  (1e-100 <= 1 /\ 0 <= 1 <= 1e300) /\
  Zfac (fun _ _ => Fin 0.5) (Fin 1) (Fin 1) =
    Ok (Fin (0.06125 * (1 / 1) * exp (-1.2 * (1 - 1 / 1) ^ 2) * 1 / 0.5)).
Proof.
  split; [lra |].
  destruct (Zfac_hall_yarborough_search (fun _ _ => Fin 0.5) 1 1 ltac:(lra) ltac:(lra))
    as [_ [_ Hz]].
  pose proof (alpha_of_bounds (1 / 1) ltac:(lra)) as Ha. unfold alpha_of in Ha.
  pose proof ovf_bounds.
  apply Hz; [reflexivity | lra | apply Rabs_lt_of; lra].
Defined.

(** C10 (counterexample): for Tpr = 1e-160, line 137 computes
    [(1 - t) ** 2] with t = 1e160, which overflows: [Zfac] raises
    OverflowError before it reaches the division of line 140. *)
Lemma Zfac_tiny_Tpr_overflow_cex :
  Zfac (fun _ _ => Fin 1) (Fin 1e-160) (Fin 1) = Raise OverflowError.
Proof.
  pose proof ovf_bounds.
  apply Zfac_overflow; replace (1 / 1e-160) with 1e160 by lra;
    rewrite ?Rabs_pos_eq by lra; lra.
Qed.

(** C10 (amended): for Tpr <> 0 whose [(1 / Tpr) ** 3] does not overflow,
    [Zfac] reaches line 140 and returns alpha Ppr / y for whatever y the root
    search returns, unguarded: a finite non-zero y gives the quotient, y = 0
    gives inf, -inf or nan with no exception. Before that division [Zfac]
    raises only ZeroDivisionError (Tpr = 0, line 136) or OverflowError (an
    overflowing power of t, lines 137 and 133). *)
Theorem Zfac_final_division_unguarded_when_reached (fsolve : (R -> npf) -> R -> npf)
  (Tpr Ppr : R) (HT : Tpr <> 0) (HO : Rabs (1 / Tpr) ^ 3 < float_overflow) :
  let t := 1 / Tpr in
  let alpha := alpha_of t in
  let y := fsolve (fun y => res_value (fy y (Fin alpha) (Fin Ppr) (Fin t))) 0.001 in
  Zfac fsolve (Fin Tpr) (Fin Ppr) = Ok (f_div (f_mul (Fin alpha) (Fin Ppr)) y) /\
  (forall ys, y = Fin ys -> ys <> 0 -> Rabs (alpha * Ppr) < float_overflow ->
     Rabs (alpha * Ppr / ys) < float_overflow ->
     Zfac fsolve (Fin Tpr) (Fin Ppr) = Ok (Fin (alpha * Ppr / ys))) /\
  (y = Fin 0 ->
     Zfac fsolve (Fin Tpr) (Fin Ppr) =
       Ok (if Req_EM_T (alpha * Ppr) 0 then NaN else inf_sign (alpha * Ppr))) /\
  (forall Tpr' Ppr' err, Zfac fsolve (Fin Tpr') Ppr' = Raise err ->
     (Tpr' = 0 /\ err = ZeroDivisionError) \/
     (Tpr' <> 0 /\ float_overflow <= Rabs (1 / Tpr') ^ 3 /\ err = OverflowError)).
Proof.
  intros t alpha y.
  assert (HZ : Zfac fsolve (Fin Tpr) (Fin Ppr) =
               Ok (f_div (f_mul (Fin alpha) (Fin Ppr)) y))
    by (apply Zfac_eq; assumption).
  split; [exact HZ |]. split; [| split].
  - intros ys Hy Hn H1 H2. rewrite HZ, Hy. f_equal. apply f_div_mul_fin; assumption.
  - intros Hy. rewrite HZ, Hy. f_equal. apply f_div_mul_zero.
  - exact (Zfac_raise fsolve).
Qed.

Lemma Zfac_final_division_unguarded_when_reached_witness :
  ((1 : R) <> 0 /\ Rabs (1 / 1) ^ 3 < float_overflow) /\
  Zfac (fun _ _ => Fin 0) (Fin 1) (Fin 1) =
    Ok (if Req_EM_T (alpha_of (1 / 1) * 1) 0 then NaN else inf_sign (alpha_of (1 / 1) * 1)).
Proof.
  pose proof ovf_bounds.
  assert (H1 : Rabs (1 / 1) ^ 3 < float_overflow)
    by (replace (1 / 1) with 1 by lra; rewrite Rabs_R1; simpl; lra).
  split; [split; [lra | exact H1] |].
  destruct (Zfac_final_division_unguarded_when_reached (fun _ _ => Fin 0) 1 1
              ltac:(lra) H1) as [_ [_ [Hz _]]].
  apply Hz. reflexivity.
Defined.

(** A lower bound on [alpha] at t = 2 (Tpr = 0.5): exp (-1.2) >= 0.7 ^ 4. *)
Lemma alpha_of_2_lower : 0.0294 <= alpha_of 2.
Proof.
  unfold alpha_of.
  replace (-1.2 * (1 - 2) ^ 2) with (-0.3 + -0.3 + -0.3 + -0.3) by lra.
  rewrite !exp_plus.
  pose proof (exp_ineq1_le (-0.3)) as H.
  assert (H2 : 0.49 <= exp (-0.3) * exp (-0.3))
    by (replace 0.49 with (0.7 * 0.7) by lra; apply Rmult_le_compat; lra).
  assert (H4 : 0.2401 <= exp (-0.3) * exp (-0.3) * exp (-0.3) * exp (-0.3)).
  { replace (exp (-0.3) * exp (-0.3) * exp (-0.3) * exp (-0.3))
      with ((exp (-0.3) * exp (-0.3)) * (exp (-0.3) * exp (-0.3))) by ring.
    replace 0.2401 with (0.49 * 0.49) by lra.
    apply Rmult_le_compat; lra. }
  lra.
Qed.

(** C3 (counterexample): at Tpr = 0.5, Ppr = 2 the search returns its
    initial guess y = 0.001, where the residual is below -0.05, so it is not
    a root; [Zfac] reports no error and returns alpha Ppr / 0.001. *)
Lemma Zfac_accepts_nonroot_cex :
  Zfac (fun _ _ => Fin 0.001) (Fin 0.5) (Fin 2) = Ok (Fin (alpha_of 2 * 2 / 0.001)) /\
  exists v, fy 0.001 (Fin (alpha_of 2)) (Fin 2) (Fin 2) = Ok (Fin v) /\ v < -0.05.
Proof.
  pose proof ovf_bounds. pose proof (alpha_of_bounds 2 ltac:(lra)) as Ha.
  pose proof alpha_of_2_lower.
  split.
  - rewrite Zfac_eq by (try replace (1 / 0.5) with 2 by lra;
                        try rewrite Rabs_pos_eq by lra; simpl; lra).
    replace (1 / 0.5) with 2 by lra. cbn beta. f_equal.
    apply f_div_mul_fin; [| lra |]; apply Rabs_lt_of; lra.
  - eexists. split; [apply fy_finite; try lra; apply Rabs_le; lra |].
    unfold hy_residual_spec.
    pose proof (Rpower_pos 0.001 (2.18 + 2.82 * 2)). lra.
Qed.

(** C3 (amended): [Zfac] checks neither convergence nor the range of the
    root. For Tpr <> 0 whose [(1 / Tpr) ** 3] does not overflow it raises no
    error, and for whatever y <= 0 or y >= 1 (y <> 0) the search returns it
    returns alpha Ppr / y. Its only exceptions are ZeroDivisionError for
    Tpr = 0 and OverflowError when [(1 / Tpr) ** 3] overflows. *)
Theorem Zfac_returns_unchecked_root (fsolve : (R -> npf) -> R -> npf)
  (Tpr Ppr : R) (HT : Tpr <> 0) (HO : Rabs (1 / Tpr) ^ 3 < float_overflow) :
  let t := 1 / Tpr in
  let alpha := alpha_of t in
  let y := fsolve (fun y => res_value (fy y (Fin alpha) (Fin Ppr) (Fin t))) 0.001 in
  (forall err, Zfac fsolve (Fin Tpr) (Fin Ppr) <> Raise err) /\
  (forall ys, y = Fin ys -> (ys <= 0 \/ 1 <= ys) -> ys <> 0 ->
     Rabs (alpha * Ppr) < float_overflow -> Rabs (alpha * Ppr / ys) < float_overflow ->
     Zfac fsolve (Fin Tpr) (Fin Ppr) = Ok (Fin (alpha * Ppr / ys))) /\
  (forall Tpr' Ppr' err, Zfac fsolve (Fin Tpr') Ppr' = Raise err ->
     (Tpr' = 0 /\ err = ZeroDivisionError) \/
     (Tpr' <> 0 /\ float_overflow <= Rabs (1 / Tpr') ^ 3 /\ err = OverflowError)).
Proof.
  intros t alpha y.
  assert (HZ : Zfac fsolve (Fin Tpr) (Fin Ppr) =
               Ok (f_div (f_mul (Fin alpha) (Fin Ppr)) y))
    by (apply Zfac_eq; assumption).
  split; [intros err; rewrite HZ; discriminate |]. split.
  - intros ys Hy _ Hn H1 H2. rewrite HZ, Hy. f_equal. apply f_div_mul_fin; assumption.
  - exact (Zfac_raise fsolve).
Qed.

Lemma Zfac_returns_unchecked_root_witness :
  ((1 : R) <> 0 /\ Rabs (1 / 1) ^ 3 < float_overflow) /\
  Zfac (fun _ _ => Fin (-1)) (Fin 1) (Fin 1) = Ok (Fin (alpha_of (1 / 1) * 1 / -1)).
Proof.
  pose proof ovf_bounds.
  pose proof (alpha_of_bounds (1 / 1) ltac:(lra)) as Ha.
  assert (H1 : Rabs (1 / 1) ^ 3 < float_overflow)
    by (replace (1 / 1) with 1 by lra; rewrite Rabs_R1; simpl; lra).
  split; [split; [lra | exact H1] |].
  destruct (Zfac_returns_unchecked_root (fun _ _ => Fin (-1)) 1 1 ltac:(lra) H1)
    as [_ [Hz _]].
  apply Hz; [reflexivity | lra | lra | apply Rabs_lt_of; lra | apply Rabs_lt_of; lra].
Defined.

(** ** The correction on every accepted input *)

Lemma Tpc_bounds (SG : R) : 0.55 <= SG <= 1 -> 339 < Tpc SG <= 445.
Proof. intros H. unfold Tpc. simpl. split; nra. Qed.

Lemma Ppc_bounds (SG : R) : 0.55 <= SG <= 1 -> 600 < Ppc SG <= 700.
Proof. intros H. unfold Ppc. simpl. split; nra. Qed.

Lemma rpow_diff_wide (x : R) :
  0 <= x <= 2 -> -4 <= rpow x 0.9 - rpow x 1.6 <= 1.
Proof.
  intros Hx. unfold rpow. R_cases.
  pose proof (Rpower_pos x 0.9). pose proof (Rpower_pos x 1.6).
  assert (H2 : Rpower x 1.6 <= 4).
  { apply Rle_trans with (Rpower 2 1.6); [apply Rle_Rpower_l; lra |].
    apply Rle_trans with (Rpower 2 2); [apply Rle_Rpower; lra |].
    replace 2 with (INR 2) at 2 by (simpl; lra). rewrite Rpower_pow by lra.
    simpl. lra. }
  destruct (Rle_dec x 1) as [Hle | Hgt].
  - pose proof (Rpower_le_1 x 0.9 r Hle ltac:(lra)). lra.
  - pose proof (Rle_Rpower x 0.9 1.6 ltac:(lra) ltac:(lra)). lra.
Qed.

Lemma wa_e_spec_wide_bounds (yH yC yN : R) :
  0 <= yH <= 1 -> 0 <= yC <= 1 -> 0 <= yN <= 1 ->
  -480 <= wa_e_spec yH yC yN <= 135.
Proof.
  intros HH HC HN. unfold wa_e_spec.
  pose proof (rpow_diff_wide (yN + yC) ltac:(lra)) as Hx.
  assert (Hy : 0 <= rpow yH 0.5 - yH ^ 4 <= 1).
  { unfold rpow. R_cases.
    - rewrite <- (Rpower_pow 4 yH r). simpl INR.
      replace (1 + 1 + 1 + 1) with 4 by lra.
      pose proof (Rpower_antitone yH 0.5 4 r ltac:(lra) ltac:(lra)).
      pose proof (Rpower_le_1 yH 0.5 r ltac:(lra) ltac:(lra)).
      pose proof (Rpower_pos yH 4). lra.
    - assert (yH = 0) as -> by lra. simpl. lra. }
  lra.
Qed.

Lemma div_le_self (a b : R) : 0 <= a -> 1 <= b -> 0 <= a / b <= a.
Proof.
  intros Ha Hb. split; [apply Rmult_le_pos; [lra | left; apply Rinv_0_lt_compat; lra] |].
  apply Rmult_le_reg_r with b; [lra |].
  unfold Rdiv. rewrite Rmult_assoc, Rinv_l by lra.
  assert (a * 1 <= a * b) by (apply Rmult_le_compat_l; lra). lra.
Qed.

Lemma div_bounds (n d lo hi : R) :
  0 < d -> lo * d <= n -> n <= hi * d -> lo <= n / d <= hi.
Proof.
  intros Hd Hl Hh. split;
    (apply Rmult_le_reg_r with d; [lra |]);
    unfold Rdiv; rewrite Rmult_assoc, Rinv_l, Rmult_1_r by lra; lra.
Qed.

(** Every mole fraction in [0, 1], whatever their sum: the correction
    succeeds, with 200 <= TpcCorr <= 1000 and 100 <= PpcCorr <= 4000. *)
Lemma wichert_aziz_unit_bounds (Tpc0 Ppc0 yH yC yN : R) :
  339 < Tpc0 <= 445 -> 600 < Ppc0 <= 700 ->
  0 <= yH <= 1 -> 0 <= yC <= 1 -> 0 <= yN <= 1 ->
  exists Tc Pc, wichert_aziz Tpc0 Ppc0 yH yC yN = Ok (Tc, Pc) /\
                200 <= Tc <= 1000 /\ 100 <= Pc <= 4000.
Proof.
  intros HT HP HH HC HN.
  pose proof (wa_e_spec_wide_bounds yH yC yN HH HC HN) as He.
  set (ev := wa_e_spec yH yC yN) in *.
  pose proof (h2s_weight_bounds yH HH) as [Hw0 Hw1].
  set (w := yH * (1 - yH)) in *.
  assert (HD : 180 <= Tpc0 + w * (304.2 - (Tpc0 - ev)) <= 480).
  { assert (Hm1 : w * -621 <= w * (304.2 - (Tpc0 - ev)))
      by (apply Rmult_le_compat_l; lra).
    assert (Hm2 : w * (304.2 - (Tpc0 - ev)) <= w * 120)
      by (apply Rmult_le_compat_l; lra).
    lra. }
  assert (HN0 : 120000 <= Ppc0 * (Tpc0 - ev) <= 700000).
  { split.
    - replace 120000 with (600 * 200) by lra. apply Rmult_le_compat; lra.
    - replace 700000 with (700 * 1000) by lra. apply Rmult_le_compat; lra. }
  unfold wichert_aziz. rewrite e_ok by lra. cbn [bind]. fold ev.
  replace (Tpc0 + yH * (1 - yH) * (304.2 - (Tpc0 - ev)))
    with (Tpc0 + w * (304.2 - (Tpc0 - ev))) by (unfold w; ring).
  unfold py_div. R_cases. cbn [bind].
  eexists; eexists. split; [reflexivity |]. split; [lra |].
  apply div_bounds; lra.
Qed.

(** ** Input validation *)

Lemma validate_frac_bounds (f : field) : 0 <= fst (validate_frac f) <= 1.
Proof.
  destruct f as [| | r | | |]; cbn [validate_frac py_float fst]; try lra.
  R_cases; cbn [fst]; lra.
Qed.

Lemma validate_SG_ok (sg : R) :
  0.55 <= sg <= 1 -> validate_SG (Num sg) = (VFloat sg, None).
Proof. intros H. cbn [validate_SG py_float]. R_cases. reflexivity. Qed.

Lemma validate_P_ok (p : R) : 14.7 <= p -> validate_P (Num p) = (VFloat (Fin p), None).
Proof. intros H. cbn [validate_P py_float f_lt]. R_cases. reflexivity. Qed.

Lemma validate_T_ok (t : R) : 60 <= t -> validate_T (Num t) = (VFloat (Fin t), None).
Proof. intros H. cbn [validate_T py_float f_lt]. R_cases. reflexivity. Qed.

Lemma validate_P_low (p : R) : p < 14.7 -> validate_P (Num p) = (VNone, Some OutOfRange).
Proof. intros H. cbn [validate_P py_float f_lt]. R_cases. reflexivity. Qed.

Lemma validate_T_low (t : R) : t < 60 -> validate_T (Num t) = (VNone, Some OutOfRange).
Proof. intros H. cbn [validate_T py_float f_lt]. R_cases. reflexivity. Qed.

Lemma validate_frac_reject (r : R) :
  ~ (0 <= r <= 1) -> validate_frac (Num r) = (0, Some OutOfRange).
Proof.
  intros H. cbn [validate_frac py_float].
  R_cases; try reflexivity; exfalso; apply H; lra.
Qed.

Lemma validate_SG_float (f : field) (sg : R) :
  fst (validate_SG f) = VFloat sg -> 0.55 <= sg <= 1.
Proof.
  destruct f as [| | r | | |]; cbn [validate_SG py_float fst]; try discriminate.
  R_cases; cbn [fst]; intros H; try discriminate H. injection H as <-. lra.
Qed.

Lemma validate_P_float (f : field) (p : R) :
  fst (validate_P f) = VFloat (Fin p) -> 14.7 <= p.
Proof.
  destruct f as [| | r | | |]; cbn [validate_P py_float f_lt fst]; try discriminate.
  R_cases; cbn [fst]; intros H; try discriminate H. injection H as <-. lra.
Qed.

Lemma validate_T_float (f : field) (t : R) :
  fst (validate_T f) = VFloat (Fin t) -> 60 <= t.
Proof.
  destruct f as [| | r | | |]; cbn [validate_T py_float f_lt fst]; try discriminate.
  R_cases; cbn [fst]; intros H; try discriminate H. injection H as <-. lra.
Qed.

Lemma module_level_ok (sg : R) (fH fC fN : field) :
  0.55 <= sg <= 1 ->
  exists Tc Pc,
    wichert_aziz (Tpc sg) (Ppc sg) (fst (validate_frac fH))
      (fst (validate_frac fC)) (fst (validate_frac fN)) = Ok (Tc, Pc) /\
    200 <= Tc <= 1000 /\ 100 <= Pc <= 4000.
Proof.
  intros HSG.
  apply wichert_aziz_unit_bounds; try apply validate_frac_bounds;
    [apply Tpc_bounds | apply Ppc_bounds]; exact HSG.
Qed.

(** ** Reduced properties *)

Lemma py_fdiv_fin (a b : R) :
  b <> 0 -> Rabs (a / b) < float_overflow -> py_fdiv (Fin a) (Fin b) = Ok (Fin (a / b)).
Proof.
  intros Hb H. unfold py_fdiv, f_div. R_cases. rewrite np_fin_small by exact H.
  reflexivity.
Qed.

Lemma T_rankine_fin (t : R) :
  Rabs (t + 459.67) < float_overflow -> f_add (Fin t) (Fin 459.67) = Fin (t + 459.67).
Proof. apply np_fin_small. Qed.

Lemma reduced_properties_fin (P T Tc Pc : R) :
  Tc <> 0 -> Pc <> 0 -> Rabs (T + 459.67) < float_overflow ->
  Rabs ((T + 459.67) / Tc) < float_overflow -> Rabs (P / Pc) < float_overflow ->
  reduced_properties (Fin P) (Fin T) Tc Pc = Ok (Fin ((T + 459.67) / Tc), Fin (P / Pc)).
Proof.
  intros HT HP H1 H2 H3. unfold reduced_properties.
  rewrite T_rankine_fin by exact H1.
  rewrite py_fdiv_fin by assumption. cbn [bind].
  rewrite py_fdiv_fin by assumption. reflexivity.
Qed.

(** The bounds that accepted finite inputs and the correction's bounds give
    the reduced properties. *)
Lemma reduced_bounds (p t Tc Pc : R) :
  14.7 <= p <= float_max + 1000 -> 60 <= t <= float_max ->
  200 <= Tc <= 1000 -> 100 <= Pc <= 4000 ->
  Rabs (t + 459.67) < float_overflow /\
  Rabs ((t + 459.67) / Tc) < float_overflow /\ Rabs (p / Pc) < float_overflow /\
  0.5 < (t + 459.67) / Tc /\ 0 < p / Pc /\
  Rabs (1 / ((t + 459.67) / Tc)) ^ 3 < float_overflow.
Proof.
  intros HP HT HTc HPc. pose proof float_max_bounds. pose proof ovf_bounds.
  pose proof (div_le_self (t + 459.67) Tc ltac:(lra) ltac:(lra)).
  pose proof (div_le_self p Pc ltac:(lra) ltac:(lra)).
  assert (Htr : 0.51 <= (t + 459.67) / Tc).
  { apply Rmult_le_reg_r with Tc; [lra |]. unfold Rdiv.
    rewrite Rmult_assoc, Rinv_l, Rmult_1_r by lra. lra. }
  assert (Hp : 0 < p / Pc) by (apply Rdiv_lt_0_compat; lra).
  assert (Hi : 0 < 1 / ((t + 459.67) / Tc) <= 2).
  { replace (1 / ((t + 459.67) / Tc)) with (Tc / (t + 459.67)) by (field; lra).
    split; [apply Rdiv_lt_0_compat; lra |].
    apply (div_bounds Tc (t + 459.67) 0 2); lra. }
  split; [apply Rabs_lt_of; lra |]. split; [apply Rabs_lt_of; lra |].
  split; [apply Rabs_lt_of; lra |].
  split; [lra |]. split; [exact Hp |].
  rewrite Rabs_pos_eq by lra.
  assert ((1 / ((t + 459.67) / Tc)) ^ 3 <= 2 ^ 3) by (apply pow_incr; lra).
  simpl in *. lra.
Qed.

(** ** The pressure sweep *)

Lemma Int_part_IZR (z : Z) : Int_part (IZR z) = z.
Proof.
  unfold Int_part.
  rewrite <- (tech_up (IZR z) (z + 1)); [lia | |];
    rewrite plus_IZR; lra.
Qed.

Lemma py_int_nonneg (x : R) : 0 <= x -> py_int x = Int_part x.
Proof. intros Hx. unfold py_int. R_cases. reflexivity. Qed.

Lemma pressures_1500 :
  pressures 1500 =
    [14.7; 200; 400; 600; 800; 1000; 1200; 1400; 1600; 1800; 2000; 2200; 2400].
Proof.
  unfold pressures.
  replace (1500 + 1000) with (IZR 2500) by lra.
  rewrite py_int_nonneg by lra. rewrite Int_part_IZR.
  reflexivity.
Qed.

Lemma py_range_200_sorted (s n : nat) :
  Sorted Rlt (map IZR (map (fun i => (200 + 200 * Z.of_nat i)%Z) (seq s n))).
Proof.
  revert s. induction n as [| n IH]; intros s; cbn [seq map]; [constructor |].
  constructor; [apply IH |].
  destruct n as [| n]; cbn [seq map]; constructor.
  apply IZR_lt. lia.
Qed.

Lemma In_py_range_200 (x : R) (stop : Z) :
  In x (map IZR (py_range 200 stop 200)) <->
  exists k : Z, (1 <= k)%Z /\ (200 * k < stop)%Z /\ x = IZR (200 * k).
Proof.
  unfold py_range, range_len. rewrite map_map. rewrite in_map_iff.
  destruct (200 <? stop)%Z eqn:Hs.
  - apply Z.ltb_lt in Hs. split.
    + intros [i [Hi Hin]]. apply in_seq in Hin.
      exists (Z.of_nat i + 1)%Z. split; [lia |]. split.
      * assert (Hlt : (Z.of_nat i < (stop - 200 + 200 - 1) / 200)%Z).
        { destruct Hin as [_ Hin]. simpl in Hin.
          apply (Nat2Z.inj_lt i) in Hin. rewrite Z2Nat.id in Hin; [lia |].
          apply Z.div_pos; lia. }
        assert (Hq : (200 * ((stop - 200 + 200 - 1) / 200) <= stop - 200 + 200 - 1)%Z)
          by (apply Z.mul_div_le; lia).
        lia.
      * rewrite <- Hi. f_equal. lia.
    + intros [k [Hk [Hks ->]]]. exists (Z.to_nat (k - 1)). split.
      * f_equal. lia.
      * apply in_seq. split; [lia |]. simpl.
        apply Nat2Z.inj_lt. rewrite Z2Nat.id by lia.
        rewrite Z2Nat.id by (apply Z.div_pos; lia).
        assert (k <= (stop - 200 + 200 - 1) / 200)%Z
          by (apply Z.div_le_lower_bound; lia).
        lia.
  - apply Z.ltb_ge in Hs. cbn [seq]. split; [intros [i [_ []]] |].
    intros [k [Hk [Hks _]]]. exfalso. lia.
Qed.

(** Every sampled pressure lies between 14.7 and P + 1000. *)
Lemma pressures_bounds (P : R) :
  14.7 <= P -> Forall (fun q => 14.7 <= q <= P + 1000) (pressures P).
Proof.
  intros HP. unfold pressures. constructor; [lra |].
  apply Forall_forall. intros x Hx. apply In_py_range_200 in Hx as [k [Hk [Hks ->]]].
  rewrite py_int_nonneg in Hks by lra.
  pose proof (base_Int_part (P + 1000)) as [Hlo _].
  assert (H1 : IZR 200 <= IZR (200 * k)) by (apply IZR_le; lia).
  assert (H2 : IZR (200 * k) <= IZR (Int_part (P + 1000))) by (apply IZR_le; lia).
  lra.
Qed.

(** ** The highlighted row *)

Lemma map_fst_combine {A B : Type} (l : list A) (l' : list B) :
  length l = length l' -> map fst (combine l l') = l.
Proof.
  revert l'. induction l as [| a l IH]; intros [| b l'] H; simpl in *;
    try reflexivity; try discriminate H.
  f_equal. apply IH. lia.
Qed.

(** The lookup of line 188 is empty exactly when no row's pressure equals P;
    it never picks a nearest row. *)
Lemma highlight_point_nil_iff (P : R) (df : list (R * npf)) :
  highlight_point P df = [] <-> ~ In P (map fst df).
Proof.
  unfold highlight_point. induction df as [| [p z] df IH]; simpl.
  - split; [intros _ H; exact H | reflexivity].
  - destruct (Req_EM_T p P) as [Heq | Hne].
    + split; [intros H; discriminate H | intros H; exfalso; apply H; left; exact Heq].
    + rewrite IH. split.
      * intros H [H' | H']; [apply Hne; exact H' | apply H; exact H'].
      * intros H H'. apply H. right. exact H'.
Qed.

Lemma combine_map_self {A B : Type} (f : A -> B) (l : list A) :
  combine l (map f l) = map (fun a => (a, f a)) l.
Proof. induction l as [| a l IH]; simpl; [reflexivity | rewrite IH; reflexivity]. Qed.

Lemma highlight_value_in (P : R) (f : R -> npf) (ps : list R) :
  In P ps -> highlight_value (highlight_point P (map (fun q => (q, f q)) ps)) = Ok (f P).
Proof.
  induction ps as [| a ps IH]; intros Hin; [destruct Hin |].
  unfold highlight_point in *. simpl.
  destruct (Req_EM_T a P) as [-> | Hne]; [reflexivity |].
  apply IH. destruct Hin as [-> | Hin]; [contradiction | exact Hin].
Qed.

Lemma highlight_value_not_in (P : R) (f : R -> npf) (ps : list R) :
  ~ In P ps -> highlight_value (highlight_point P (map (fun q => (q, f q)) ps))
               = Raise IndexError.
Proof.
  intros Hn. replace (highlight_point P (map (fun q => (q, f q)) ps)) with
    (@nil (R * npf)); [reflexivity |].
  symmetry. apply highlight_point_nil_iff. rewrite map_map. simpl.
  rewrite map_id. exact Hn.
Qed.

(** ** The button handler on finite inputs *)

Lemma z_factors_map (fsolve : (R -> npf) -> R -> npf) (TR Tc Pc : R) (ps : list R) :
  Tc <> 0 -> Pc <> 0 -> Rabs (TR / Tc) < float_overflow -> TR / Tc <> 0 ->
  Rabs (1 / (TR / Tc)) ^ 3 < float_overflow ->
  Forall (fun q => Rabs (q / Pc) < float_overflow) ps ->
  z_factors fsolve (Fin TR) Tc Pc ps =
    Ok (map (fun q => Zvalue fsolve (TR / Tc) (q / Pc)) ps).
Proof.
  intros HT HP H1 H2 H3 Hps. unfold z_factors.
  induction Hps as [| q ps Hq Hps IH]; [reflexivity |].
  cbn [mapM map]. rewrite IH. rewrite py_fdiv_fin by assumption. cbn [bind].
  rewrite py_fdiv_fin by assumption. cbn [bind].
  rewrite Zfac_eq by assumption. reflexivity.
Qed.

(** For finite accepted P and T below the largest float and the bounds the
    correction gives, lines 162-198 raise nothing before line 195: the
    handler shows the Z-factor of every sampled pressure, and line 195 reads
    the row of P. *)
Lemma handler_finite (fsolve : (R -> npf) -> R -> npf) (p t Tc Pc : R) :
  14.7 <= p <= float_max -> 60 <= t <= float_max ->
  200 <= Tc <= 1000 -> 100 <= Pc <= 4000 ->
  handler fsolve (Fin p) (Fin t) Tc Pc =
    hz <- highlight_value
            (highlight_point p
               (map (fun q => (q, Zvalue fsolve ((t + 459.67) / Tc) (q / Pc)))
                  (pressures p))) ;;
    Ok (Zvalue fsolve ((t + 459.67) / Tc) (p / Pc),
        (map (fun q => (q, Zvalue fsolve ((t + 459.67) / Tc) (q / Pc))) (pressures p),
         hz)).
Proof.
  intros HP HT HTc HPc. pose proof float_max_bounds as [Hm1 Hm2].
  destruct (reduced_bounds p t Tc Pc ltac:(lra) HT HTc HPc)
    as [H1 [H2 [H3 [H4 [H5 H6]]]]].
  unfold handler. rewrite reduced_properties_fin by (assumption || lra). cbn [bind].
  rewrite Zfac_eq by (assumption || lra). cbn [bind].
  unfold pressure_sweep. rewrite T_rankine_fin by exact H1.
  rewrite z_factors_map; [| lra | lra | exact H2 | lra | exact H6 |].
  - cbn [bind]. rewrite combine_map_self.
    destruct (highlight_value _); reflexivity.
  - eapply Forall_impl; [| apply (pressures_bounds p ltac:(lra))].
    intros q Hq. cbn beta in Hq.
    apply (reduced_bounds q t Tc Pc ltac:(lra) HT HTc HPc).
Qed.

(** A nan or infinite P reaches line 173, where [int(P + 1000)] raises. *)
Lemma handler_nonfinite_P (fsolve : (R -> npf) -> R -> npf) (t Tc Pc : R) :
  60 <= t <= float_max -> 200 <= Tc <= 1000 -> 100 <= Pc <= 4000 ->
  handler fsolve NaN (Fin t) Tc Pc = Raise ValueError /\
  handler fsolve PInf (Fin t) Tc Pc = Raise OverflowError.
Proof.
  intros HT HTc HPc. pose proof float_max_bounds as [Hm1 Hm2].
  destruct (reduced_bounds 14.7 t Tc Pc ltac:(lra) HT HTc HPc)
    as [H1 [H2 [H3 [H4 [H5 H6]]]]].
  unfold handler, reduced_properties. rewrite T_rankine_fin by exact H1.
  rewrite py_fdiv_fin by (assumption || lra). cbn [bind].
  unfold py_fdiv at 1 2. cbn [f_div].
  R_cases. cbn [bind].
  rewrite !Zfac_eq by (assumption || lra). split; reflexivity.
Qed.

(** ** The script *)

Lemma missing_inputs_nil (sg : R) (x u : npf) (fH fC fN : field) :
  fH <> Empty -> fC <> Empty -> fN <> Empty ->
  missing_inputs (VFloat sg) (VFloat x) (VFloat u) fH fC fN = [].
Proof.
  intros HH HC HN.
  destruct fH, fC, fN; try congruence; reflexivity.
Qed.

Lemma missing_inputs_no_SG (sg : R) (P T : pyval npf) (fH fC fN : field) :
  ~ In GasGravity (missing_inputs (VFloat sg) P T fH fC fN).
Proof.
  unfold missing_inputs. simpl.
  destruct (is_None P), (is_None T), (is_empty fH), (is_empty fC), (is_empty fN);
    simpl; intuition discriminate.
Qed.

Lemma script_frac_congr (fsolve : (R -> npf) -> R -> npf)
  (fSG fP fT fH fC fN fH' fC' fN' : field) (clicked : bool) :
  is_empty fH = is_empty fH' -> is_empty fC = is_empty fC' ->
  is_empty fN = is_empty fN' ->
  fst (validate_frac fH) = fst (validate_frac fH') ->
  fst (validate_frac fC) = fst (validate_frac fC') ->
  fst (validate_frac fN) = fst (validate_frac fN') ->
  script fsolve fSG fP fT fH fC fN clicked = script fsolve fSG fP fT fH' fC' fN' clicked.
Proof.
  intros EH EC EN VH VC VN. unfold script, missing_inputs. cbv zeta.
  rewrite EH, EC, EN, VH, VC, VN. reflexivity.
Qed.

(** The button path once SG, P and T are accepted and the three fraction
    fields are non-empty. *)
Lemma script_clicked_accepted (fsolve : (R -> npf) -> R -> npf)
  (fSG fP fT fH fC fN : field) (sg Tc Pc : R) (x u : npf) :
  fst (validate_SG fSG) = VFloat sg -> fst (validate_P fP) = VFloat x ->
  fst (validate_T fT) = VFloat u ->
  fH <> Empty -> fC <> Empty -> fN <> Empty ->
  wichert_aziz (Tpc sg) (Ppc sg) (fst (validate_frac fH))
    (fst (validate_frac fC)) (fst (validate_frac fN)) = Ok (Tc, Pc) ->
  script fsolve fSG fP fT fH fC fN true =
    match handler fsolve x u Tc Pc with
    | Ok (z_factor, (df, hz)) => Shown z_factor df hz
    | Raise err => Crashed (PyError err)
    end.
Proof.
  intros HSG HP HT HH HC HN Hw. unfold script. cbv zeta.
  rewrite HSG, HP, HT, Hw. rewrite missing_inputs_nil by assumption. reflexivity.
Qed.

Lemma validate_SG_fst (sg : R) : 0.55 <= sg <= 1 -> fst (validate_SG (Num sg)) = VFloat sg.
Proof. intros H. rewrite validate_SG_ok by exact H. reflexivity. Qed.

Lemma validate_P_fst (p : R) : 14.7 <= p -> fst (validate_P (Num p)) = VFloat (Fin p).
Proof. intros H. rewrite validate_P_ok by exact H. reflexivity. Qed.

Lemma validate_T_fst (t : R) : 60 <= t -> fst (validate_T (Num t)) = VFloat (Fin t).
Proof. intros H. rewrite validate_T_ok by exact H. reflexivity. Qed.

(** * Claims *)




(** C2: for every input pressure the lookup of line 188 is empty exactly when
    no sampled pressure equals it. Line 195 then reads [values[0]] of that
    empty selection: at SG = 0.75, P = 1500 psi, T = 150 F and no
    contaminants the button handler raises IndexError instead of yielding
    "none". *)
Theorem highlight_1500_raises_IndexError (fsolve : (R -> npf) -> R -> npf) :
  (forall P df, highlight_point P df = [] <-> ~ In P (map fst df)) /\
  ~ In 1500 (pressures 1500) /\
  calculate fsolve 0.75 1500 150 0 0 0 = Raise IndexError.
Proof.
  assert (Hnin : ~ In 1500 (pressures 1500)).
  { rewrite pressures_1500. simpl. intuition lra. }
  split; [exact highlight_point_nil_iff |]. split; [exact Hnin |].
  pose proof (Tpc_bounds 0.75 ltac:(lra)) as HT.
  pose proof (Ppc_bounds 0.75 ltac:(lra)) as HP.
  pose proof float_max_bounds as [Hm1 Hm2].
  unfold calculate. rewrite wichert_aziz_zero_R by lra. cbn [bind].
  rewrite handler_finite by lra.
  rewrite highlight_value_not_in by exact Hnin. reflexivity.
Qed.

(** C4: no input the script can receive gives a non-positive or non-finite
    corrected property, so there is nothing for a domain error to report.
    For every SG that validation accepts and whatever the three mole-fraction
    fields hold, lines 124-126 raise nothing and give TpcCorr in [200, 1000]
    and PpcCorr in [100, 4000]; for every finite P and T that validation
    accepts, lines 163-167 give the positive finite quotients
    (T + 459.67)/TpcCorr and P/PpcCorr. *)
Theorem corrections_positive_on_receivable_inputs (fSG fH fC fN : field) (sg : R)
  (HSG : fst (validate_SG fSG) = VFloat sg) :
  exists Tc Pc,
    wichert_aziz (Tpc sg) (Ppc sg) (fst (validate_frac fH)) (fst (validate_frac fC))
      (fst (validate_frac fN)) = Ok (Tc, Pc) /\
    200 <= Tc <= 1000 /\ 100 <= Pc <= 4000 /\
    (forall fP fT p t, fst (validate_P fP) = VFloat (Fin p) ->
       fst (validate_T fT) = VFloat (Fin t) -> p <= float_max -> t <= float_max ->
       reduced_properties (Fin p) (Fin t) Tc Pc =
         Ok (Fin ((t + 459.67) / Tc), Fin (p / Pc)) /\
       0 < (t + 459.67) / Tc /\ 0 < p / Pc).
Proof.
  pose proof (validate_SG_float fSG sg HSG) as Hsg.
  destruct (module_level_ok sg fH fC fN Hsg) as [Tc [Pc [Hw [HTc HPc]]]].
  exists Tc, Pc. split; [exact Hw |]. split; [exact HTc |]. split; [exact HPc |].
  intros fP fT p t HP HT Hp Ht.
  apply validate_P_float in HP. apply validate_T_float in HT.
  pose proof float_max_bounds as [Hm1 Hm2].
  destruct (reduced_bounds p t Tc Pc ltac:(lra) ltac:(lra) HTc HPc)
    as [H1 [H2 [H3 [H4 [H5 H6]]]]].
  split; [apply reduced_properties_fin; (assumption || lra) | lra].
Qed.

Lemma corrections_positive_on_receivable_inputs_witness :
  fst (validate_SG (Num 0.75)) = VFloat 0.75 /\
  exists Tc Pc,
    wichert_aziz (Tpc 0.75) (Ppc 0.75) (fst (validate_frac (Num 0.1)))
      (fst (validate_frac (Num 0.1))) (fst (validate_frac (Num 0.1))) = Ok (Tc, Pc) /\
    200 <= Tc <= 1000 /\ 100 <= Pc <= 4000 /\
    (forall fP fT p t, fst (validate_P fP) = VFloat (Fin p) ->
       fst (validate_T fT) = VFloat (Fin t) -> p <= float_max -> t <= float_max ->
       reduced_properties (Fin p) (Fin t) Tc Pc =
         Ok (Fin ((t + 459.67) / Tc), Fin (p / Pc)) /\
       0 < (t + 459.67) / Tc /\ 0 < p / Pc).
Proof.
  assert (H : fst (validate_SG (Num 0.75)) = VFloat 0.75)
    by (cbn [validate_SG py_float fst]; R_cases; reflexivity).
  split; [exact H |].
  apply (corrections_positive_on_receivable_inputs (Num 0.75) (Num 0.1) (Num 0.1)
           (Num 0.1) 0.75 H).
Defined.

(** * Further properties of the script *)

(** X3: the sum check of lines 110-115 blocks nothing, yet for an accepted SG
    and any three mole fractions in [0, 1] (summing to as much as 3) the
    correction of lines 120-126 raises no error and yields a positive
    TpcCorr and PpcCorr. *)
Theorem correction_positive_without_sum_check (sg yH yC yN : R)
  (HSG : 0.55 <= sg <= 1) (HH : 0 <= yH <= 1) (HC : 0 <= yC <= 1) (HN : 0 <= yN <= 1) :
  exists Tc Pc, wichert_aziz (Tpc sg) (Ppc sg) yH yC yN = Ok (Tc, Pc) /\
                0 < Tc /\ 0 < Pc.
Proof.
  destruct (wichert_aziz_unit_bounds (Tpc sg) (Ppc sg) yH yC yN
              (Tpc_bounds sg HSG) (Ppc_bounds sg HSG) HH HC HN)
    as [Tc [Pc [Hw [HTc HPc]]]].
  exists Tc, Pc. split; [exact Hw | lra].
Qed.

Lemma correction_positive_without_sum_check_witness :
  (0.55 <= 0.75 <= 1 /\ 0 <= 1 <= 1) /\
  exists Tc Pc, wichert_aziz (Tpc 0.75) (Ppc 0.75) 1 1 1 = Ok (Tc, Pc) /\
                0 < Tc /\ 0 < Pc.
Proof.
  split; [lra |]. apply (correction_positive_without_sum_check 0.75 1 1 1); lra.
Defined.

(** X4: with an accepted SG, a run in which the button is not clicked ends
    without error, whatever the other five fields hold. *)
Theorem script_idle_without_click (fsolve : (R -> npf) -> R -> npf) (sg : R)
  (fP fT fH fC fN : field) (HSG : 0.55 <= sg <= 1) :
  script fsolve (Num sg) fP fT fH fC fN false = Idle.
Proof.
  destruct (module_level_ok sg fH fC fN HSG) as [Tc [Pc [Hw _]]].
  unfold script. cbv zeta. rewrite (validate_SG_ok sg HSG). cbn [fst].
  rewrite Hw. reflexivity.
Qed.

Lemma script_idle_without_click_witness :
  0.55 <= 0.75 <= 1 /\
  script (fun _ _ => NaN) (Num 0.75) Empty Unparsable (Num 2) Empty Empty false
    = Idle.
Proof.
  split; [lra |]. apply (script_idle_without_click (fun _ _ => NaN) 0.75). lra.
Defined.

(** X5: when the SG field is empty, not a number or out of range, line 120
    raises TypeError on every run, clicked or not; so the "Gas Gravity"
    warning of line 147 is never shown. *)
Theorem script_invalid_SG_TypeError (fsolve : (R -> npf) -> R -> npf) :
  (forall fSG fP fT fH fC fN clicked,
     ~ (exists r, fSG = Num r /\ 0.55 <= r <= 1) ->
     script fsolve fSG fP fT fH fC fN clicked = Crashed TypeError) /\
  (forall fSG fP fT fH fC fN clicked l,
     script fsolve fSG fP fT fH fC fN clicked = Warned l -> ~ In GasGravity l).
Proof.
  split.
  - intros fSG fP fT fH fC fN clicked Hn. unfold script. cbv zeta.
    destruct fSG as [| | r | | |]; cbn [validate_SG py_float fst]; try reflexivity.
    R_cases; try reflexivity. exfalso. apply Hn. exists r. split; [reflexivity | lra].
  - intros fSG fP fT fH fC fN clicked l Hs. unfold script in Hs. cbv zeta in Hs.
    destruct (fst (validate_SG fSG)) as [| | sg]; try discriminate Hs.
    destruct (wichert_aziz _ _ _ _ _) as [[Tc Pc] | err]; [| discriminate Hs].
    destruct clicked; [| discriminate Hs].
    pose proof (missing_inputs_no_SG sg (fst (validate_P fP)) (fst (validate_T fT))
                  fH fC fN) as Hno.
    destruct (missing_inputs _ _ _ fH fC fN) as [| n ns].
    + destruct (fst (validate_T fT)), (fst (validate_P fP)); try discriminate Hs.
      destruct (handler _ _ _ _ _) as [[z [df hz]] | err]; discriminate Hs.
    + injection Hs as <-. exact Hno.
Qed.

(** X6: with SG, T and the three mole-fraction fields provided, an empty
    pressure field is not reported as missing (it holds "" and not None) and
    line 166 raises TypeError; a pressure that is not a number or is below
    14.7 psi is reported as the one missing input. *)
Theorem script_pressure_field_cases (fsolve : (R -> npf) -> R -> npf) (sg t : R)
  (fH fC fN : field) (HSG : 0.55 <= sg <= 1) (Ht : 60 <= t)
  (HH : fH <> Empty) (HC : fC <> Empty) (HN : fN <> Empty) :
  script fsolve (Num sg) Empty (Num t) fH fC fN true = Crashed TypeError /\
  script fsolve (Num sg) Unparsable (Num t) fH fC fN true = Warned [Pressure] /\
  (forall p, p < 14.7 ->
     script fsolve (Num sg) (Num p) (Num t) fH fC fN true = Warned [Pressure]).
Proof.
  destruct (module_level_ok sg fH fC fN HSG) as [Tc [Pc [Hw _]]].
  split; [| split; [| intros p Hp]]; unfold script; cbv zeta;
    rewrite (validate_SG_ok sg HSG), (validate_T_ok t Ht); cbn [fst]; rewrite Hw;
    try (rewrite (validate_P_low p Hp); cbn [fst]);
    destruct fH, fC, fN; try congruence; reflexivity.
Qed.

Lemma script_pressure_field_cases_witness :
  (0.55 <= 0.75 <= 1 /\ 60 <= 150 /\ Num 0 <> Empty) /\
  script (fun _ _ => NaN) (Num 0.75) Empty (Num 150) (Num 0) (Num 0) (Num 0) true
    = Crashed TypeError.
Proof.
  split; [split; [lra | split; [lra | discriminate]] |].
  apply (script_pressure_field_cases (fun _ _ => NaN) 0.75 150 (Num 0) (Num 0) (Num 0));
    first [lra | discriminate].
Defined.

(** X7: likewise for the temperature: an empty field is not reported and line
    163 raises TypeError; an entry that is not a number or is below 60 F is
    reported as the one missing input. *)
Theorem script_temperature_field_cases (fsolve : (R -> npf) -> R -> npf) (sg p : R)
  (fH fC fN : field) (HSG : 0.55 <= sg <= 1) (Hp : 14.7 <= p)
  (HH : fH <> Empty) (HC : fC <> Empty) (HN : fN <> Empty) :
  script fsolve (Num sg) (Num p) Empty fH fC fN true = Crashed TypeError /\
  script fsolve (Num sg) (Num p) Unparsable fH fC fN true = Warned [Temperature] /\
  (forall t, t < 60 ->
     script fsolve (Num sg) (Num p) (Num t) fH fC fN true = Warned [Temperature]).
Proof.
  destruct (module_level_ok sg fH fC fN HSG) as [Tc [Pc [Hw _]]].
  split; [| split; [| intros t Ht]]; unfold script; cbv zeta;
    rewrite (validate_SG_ok sg HSG), (validate_P_ok p Hp); cbn [fst]; rewrite Hw;
    try (rewrite (validate_T_low t Ht); cbn [fst]);
    destruct fH, fC, fN; try congruence; reflexivity.
Qed.

Lemma script_temperature_field_cases_witness :
  (0.55 <= 0.75 <= 1 /\ 14.7 <= 1400 /\ Num 0 <> Empty) /\
  script (fun _ _ => NaN) (Num 0.75) (Num 1400) (Num 50) (Num 0) (Num 0) (Num 0) true
    = Warned [Temperature].
Proof.
  split; [split; [lra | split; [lra | discriminate]] |].
  apply (script_temperature_field_cases (fun _ _ => NaN) 0.75 1400
           (Num 0) (Num 0) (Num 0)); first [lra | discriminate].
Defined.

(** X8: the sampled pressures of line 173 are strictly increasing, for every
    P. *)
Theorem pressures_sorted (P : R) : Sorted Rlt (pressures P).
Proof.
  unfold pressures, py_range.
  constructor; [apply py_range_200_sorted |].
  destruct (range_len 200 (py_int (P + 1000) + 1) 200) as [| n]; cbn [seq map];
    constructor.
  apply Rlt_le_trans with 200; [lra | apply IZR_le; lia].
Qed.

(** X9: for a valid pressure P >= 14.7, P is one of the sampled pressures of
    line 173 exactly when P = 14.7 or P is a positive multiple of 200. *)
Theorem pressure_sampled_iff (P : R) (HP : 14.7 <= P) :
  In P (pressures P) <-> P = 14.7 \/ exists k : Z, (1 <= k)%Z /\ P = IZR (200 * k).
Proof.
  unfold pressures. cbn [In]. rewrite In_py_range_200.
  rewrite py_int_nonneg by lra. split.
  - intros [H | [k [Hk [_ H]]]]; [left; lra | right; exists k; split; assumption].
  - intros [H | [k [Hk H]]]; [left; lra | right].
    exists k. split; [exact Hk | split; [| exact H]].
    rewrite H, <- plus_IZR, Int_part_IZR. lia.
Qed.

Lemma pressure_sampled_iff_witness :
  14.7 <= 1400 /\
  (In 1400 (pressures 1400) <->
   1400 = 14.7 \/ exists k : Z, (1 <= k)%Z /\ 1400 = IZR (200 * k)).
Proof. split; [lra |]. apply (pressure_sampled_iff 1400). lra. Defined.

(** X10: a click with accepted finite SG, P and T (P and T at most the
    largest binary64 float) and the three mole-fraction fields non-empty
    (their sum unchecked) raises nothing before line 195. It shows the
    Z-factor of line 169 and the table of (pressure, Z) rows over the sampled
    pressures, and the highlighted value equals the Z-factor of line 169, when
    P is sampled. Otherwise it raises IndexError. *)
Theorem script_button_outcome_finite (fsolve : (R -> npf) -> R -> npf) (sg p t : R)
  (fH fC fN : field) (HSG : 0.55 <= sg <= 1) (HP : 14.7 <= p <= float_max)
  (HT : 60 <= t <= float_max)
  (HH : fH <> Empty) (HC : fC <> Empty) (HN : fN <> Empty) :
  exists Tc Pc,
    wichert_aziz (Tpc sg) (Ppc sg) (fst (validate_frac fH))
      (fst (validate_frac fC)) (fst (validate_frac fN)) = Ok (Tc, Pc) /\
    0 < Tc /\ 0 < Pc /\
    let zv := fun q => Zvalue fsolve ((t + 459.67) / Tc) (q / Pc) in
    (In p (pressures p) ->
       script fsolve (Num sg) (Num p) (Num t) fH fC fN true =
         Shown (zv p) (map (fun q => (q, zv q)) (pressures p)) (zv p)) /\
    (~ In p (pressures p) ->
       script fsolve (Num sg) (Num p) (Num t) fH fC fN true =
         Crashed (PyError IndexError)).
Proof.
  destruct (module_level_ok sg fH fC fN HSG) as [Tc [Pc [Hw [HTc HPc]]]].
  exists Tc, Pc. split; [exact Hw |]. split; [lra |]. split; [lra |].
  cbv zeta beta.
  rewrite (script_clicked_accepted fsolve (Num sg) (Num p) (Num t) fH fC fN sg Tc Pc
             (Fin p) (Fin t) (validate_SG_fst sg HSG) (validate_P_fst p ltac:(lra))
             (validate_T_fst t ltac:(lra)) HH HC HN Hw).
  rewrite handler_finite by lra. split; intros Hin.
  - rewrite highlight_value_in by exact Hin. reflexivity.
  - rewrite highlight_value_not_in by exact Hin. reflexivity.
Qed.

Lemma script_button_outcome_finite_witness :
  (0.55 <= 0.75 <= 1 /\ 14.7 <= 1400 <= float_max /\ 60 <= 150 <= float_max /\
   Num 0 <> Empty) /\
  exists Tc Pc,
    wichert_aziz (Tpc 0.75) (Ppc 0.75) (fst (validate_frac (Num 0)))
      (fst (validate_frac (Num 0))) (fst (validate_frac (Num 0))) = Ok (Tc, Pc) /\
    0 < Tc /\ 0 < Pc /\
    let zv := fun q => Zvalue (fun _ _ => Fin 1) ((150 + 459.67) / Tc) (q / Pc) in
    (In 1400 (pressures 1400) ->
       script (fun _ _ => Fin 1) (Num 0.75) (Num 1400) (Num 150) (Num 0) (Num 0) (Num 0)
         true = Shown (zv 1400) (map (fun q => (q, zv q)) (pressures 1400)) (zv 1400)) /\
    (~ In 1400 (pressures 1400) ->
       script (fun _ _ => Fin 1) (Num 0.75) (Num 1400) (Num 150) (Num 0) (Num 0) (Num 0)
         true = Crashed (PyError IndexError)).
Proof.
  pose proof float_max_bounds as [Hm _].
  split; [split; [lra | split; [lra | split; [lra | discriminate]]] |].
  apply (script_button_outcome_finite (fun _ _ => Fin 1) 0.75 1400 150
           (Num 0) (Num 0) (Num 0)); first [lra | discriminate].
Defined.

(** X12: with SG, P and T accepted and the CO2 and N2 fields non-empty, an
    empty H2S field stops the click with a warning, while an H2S entry that is
    not a number or lies outside [0, 1] is computed exactly as the entry 0. *)
Theorem script_fraction_fields (fsolve : (R -> npf) -> R -> npf) (sg p t : R)
  (fC fN : field) (HSG : 0.55 <= sg <= 1) (HP : 14.7 <= p) (HT : 60 <= t)
  (HC : fC <> Empty) (HN : fN <> Empty) :
  script fsolve (Num sg) (Num p) (Num t) Empty fC fN true = Warned [H2S] /\
  script fsolve (Num sg) (Num p) (Num t) Unparsable fC fN true =
    script fsolve (Num sg) (Num p) (Num t) (Num 0) fC fN true /\
  (forall r, ~ (0 <= r <= 1) ->
     script fsolve (Num sg) (Num p) (Num t) (Num r) fC fN true =
       script fsolve (Num sg) (Num p) (Num t) (Num 0) fC fN true).
Proof.
  split; [| split; [| intros r Hr]].
  - destruct (module_level_ok sg Empty fC fN HSG) as [Tc [Pc [Hw _]]].
    unfold script. cbv zeta.
    rewrite (validate_SG_ok sg HSG), (validate_P_ok p HP), (validate_T_ok t HT).
    cbn [fst]. rewrite Hw. destruct fC, fN; try congruence; reflexivity.
  - apply script_frac_congr; try reflexivity. simpl. R_cases; reflexivity.
  - apply script_frac_congr; try reflexivity.
    rewrite (validate_frac_reject r Hr). simpl. R_cases; reflexivity.
Qed.

Lemma script_fraction_fields_witness :
  (0.55 <= 0.75 <= 1 /\ 14.7 <= 1400 /\ 60 <= 150 /\ Num 0 <> Empty) /\
  script (fun _ _ => Fin 1) (Num 0.75) (Num 1400) (Num 150) Empty (Num 0) (Num 0) true
    = Warned [H2S].
Proof.
  split; [split; [lra | split; [lra | split; [lra | discriminate]]] |].
  apply (script_fraction_fields (fun _ _ => Fin 1) 0.75 1400 150 (Num 0) (Num 0));
    first [lra | discriminate].
Defined.

(** X13: validation keeps a pressure entry of nan or inf, since [P < 14.7]
    is false for both; with SG, T and the three mole-fraction fields
    accepted, a click then raises at line 173, where [int(P + 1000)] gives
    ValueError for nan and OverflowError for inf. An entry of -inf is below
    14.7 and is reported as the one missing input. *)
Theorem script_nonfinite_pressure (fsolve : (R -> npf) -> R -> npf) (sg t : R)
  (fH fC fN : field) (HSG : 0.55 <= sg <= 1) (HT : 60 <= t <= float_max)
  (HH : fH <> Empty) (HC : fC <> Empty) (HN : fN <> Empty) :
  script fsolve (Num sg) NumNaN (Num t) fH fC fN true = Crashed (PyError ValueError) /\
  script fsolve (Num sg) NumInf (Num t) fH fC fN true = Crashed (PyError OverflowError) /\
  script fsolve (Num sg) NumNegInf (Num t) fH fC fN true = Warned [Pressure].
Proof.
  destruct (module_level_ok sg fH fC fN HSG) as [Tc [Pc [Hw [HTc HPc]]]].
  destruct (handler_nonfinite_P fsolve t Tc Pc HT HTc HPc) as [E1 E2].
  split; [| split].
  - rewrite (script_clicked_accepted fsolve (Num sg) NumNaN (Num t) fH fC fN sg Tc Pc
               NaN (Fin t) (validate_SG_fst sg HSG) eq_refl
               (validate_T_fst t ltac:(lra)) HH HC HN Hw).
    rewrite E1. reflexivity.
  - rewrite (script_clicked_accepted fsolve (Num sg) NumInf (Num t) fH fC fN sg Tc Pc
               PInf (Fin t) (validate_SG_fst sg HSG) eq_refl
               (validate_T_fst t ltac:(lra)) HH HC HN Hw).
    rewrite E2. reflexivity.
  - unfold script. cbv zeta.
    rewrite (validate_SG_ok sg HSG), (validate_T_ok t ltac:(lra)); cbn [fst].
    rewrite Hw. destruct fH, fC, fN; try congruence; reflexivity.
Qed.

Lemma script_nonfinite_pressure_witness :
  (0.55 <= 0.75 <= 1 /\ 60 <= 150 <= float_max /\ Num 0 <> Empty) /\
  script (fun _ _ => Fin 1) (Num 0.75) NumNaN (Num 150) (Num 0) (Num 0) (Num 0) true
    = Crashed (PyError ValueError) /\
  script (fun _ _ => Fin 1) (Num 0.75) NumInf (Num 150) (Num 0) (Num 0) (Num 0) true
    = Crashed (PyError OverflowError) /\
  script (fun _ _ => Fin 1) (Num 0.75) NumNegInf (Num 150) (Num 0) (Num 0) (Num 0) true
    = Warned [Pressure].
Proof.
  pose proof float_max_bounds as [Hm _].
  split; [split; [lra | split; [lra | discriminate]] |].
  apply (script_nonfinite_pressure (fun _ _ => Fin 1) 0.75 150 (Num 0) (Num 0) (Num 0));
    first [lra | discriminate].
Defined.
